(** * The controller configuration wizard of
      xbmc/games/controllers/windows/GUIConfigurationWizard.cpp

    A shallow embedding of [CGUIConfigurationWizard]: the object's members
    become one record, every member function becomes a function on that
    record, and the worker thread running [Process] becomes a program
    counter that is advanced from one blocking point to the next.  Calls
    that reach collaborators outside the file (button maps, the peripheral
    manager, the input manager, events and the thread base class) are kept
    in a trace so that their order and number can be stated. *)

From stdpp Require Import base decidable countable gmap sets list strings numbers.
From Stdlib Require Import ZArith Lia.

Local Open Scope Z_scope.

Set Warnings "-clear-no-such-hyp".

(** ** Values exchanged with the joystick layer *)

Inductive PRIMITIVE_TYPE := P_UNKNOWN | BUTTON | HAT | SEMIAXIS | MOTOR.

Inductive ANALOG_STICK_DIRECTION := UNKNOWN | UP | DOWN | RIGHT | LEFT.

Inductive FEATURE_TYPE := F_UNKNOWN | SCALAR | ANALOG_STICK | ACCELEROMETER | F_MOTOR.

(** Modelled from the spec: JOYSTICK::CDriverPrimitive (input/joysticks
    headers are not part of the sources).  A raw primitive is an immutable
    value with a type tag and an index, compared by value; [Detail] stands
    for the remaining members (hat or semiaxis direction). *)
Record CDriverPrimitive := mkPrimitive {
  PType : PRIMITIVE_TYPE;
  Index : N;
  Detail : N;
}.

(** Modelled from the spec: CControllerFeature, the read-only feature
    descriptor (name and type). *)
Record CControllerFeature := mkFeature {
  Name : string;
  FType : FEATURE_TYPE;
}.

(** Modelled from the spec: JOYSTICK::IButtonMap.  [bm_ptr] is the address
    of the object (what [m_bInMotion] stores), the other two are the
    answers of [DeviceName()] and [IsIgnored()]. *)
Record IButtonMap := mkButtonMap {
  bm_ptr : nat;
  DeviceName : string;
  IsIgnored : CDriverPrimitive -> bool;
}.

#[global] Instance PRIMITIVE_TYPE_eq_dec : EqDecision PRIMITIVE_TYPE.
Proof. solve_decision. Defined.

#[global] Instance ANALOG_STICK_DIRECTION_eq_dec : EqDecision ANALOG_STICK_DIRECTION.
Proof. solve_decision. Defined.

#[global] Instance FEATURE_TYPE_eq_dec : EqDecision FEATURE_TYPE.
Proof. solve_decision. Defined.

#[global] Instance CDriverPrimitive_eq_dec : EqDecision CDriverPrimitive.
Proof. solve_decision. Defined.

Definition PRIMITIVE_TYPE_to_nat (t : PRIMITIVE_TYPE) : nat :=
  match t with
  | P_UNKNOWN => 0 | BUTTON => 1 | HAT => 2 | SEMIAXIS => 3 | MOTOR => 4
  end%nat.

Definition PRIMITIVE_TYPE_of_nat (n : nat) : PRIMITIVE_TYPE :=
  match n with
  | 1 => BUTTON | 2 => HAT | 3 => SEMIAXIS | 4 => MOTOR | _ => P_UNKNOWN
  end%nat.

#[global] Instance PRIMITIVE_TYPE_countable : Countable PRIMITIVE_TYPE.
Proof.
  apply (inj_countable' PRIMITIVE_TYPE_to_nat PRIMITIVE_TYPE_of_nat).
  intros []; reflexivity.
Defined.

#[global] Instance CDriverPrimitive_countable : Countable CDriverPrimitive.
Proof.
  apply (inj_countable' (fun p => (PType p, Index p, Detail p))
                        (fun t => mkPrimitive t.1.1 t.1.2 t.2)).
  intros []; reflexivity.
Defined.

(** ** Constants of the file *)

Definition ESC_KEY_CODE : N := 27.

Definition POST_MAPPING_WAIT_TIME_MS : Z := 5 * 1000.

(** ** The feature button interface

    [IFeatureButton] is implemented outside this file.  The wizard only
    calls the five members below; a button object is a value of type [B]
    and a call that changes the object returns the new value. *)
Class IFeatureButton (B : Type) := {
  Feature : B -> CControllerFeature;
  IsFinished : B -> bool;
  GetDirection : B -> ANALOG_STICK_DIRECTION;
  (** [PromptForInput b woken] is the call returning: [woken] tells whether
      the wait event was signaled when the call came back. *)
  PromptForInput : B -> bool -> B * bool;
  Reset : B -> B;
}.

(** ** Trace of the calls the wizard makes

    A button map is named by its device in the records and in the saves
    (the callbacks of [ButtonMapCallbacks()] are kept per device), and by
    its address in the motion set. *)

Inductive Effect :=
| EAddScalar (device : string) (name : string) (p : CDriverPrimitive)
| EAddAnalogStick (device : string) (name : string) (d : ANALOG_STICK_DIRECTION)
                  (p : CDriverPrimitive)
| ESaveButtonMap (device : string)
| EInputEventSet
| EInputEventReset
| EMotionlessEventSet
| EMotionlessEventReset
| EOnMotion (bm : nat)
| EStopThread (bWait : bool)
| EWaitMSec (timeout elapsed : Z)
| EPromptForInput (button : nat)
| EButtonReset (button : nat)
| EInitializeState
| EInstallHooks
| ERemoveHooks
| ECreate.

#[global] Instance Effect_eq_dec : EqDecision Effect.
Proof. solve_decision. Defined.

(** ** The worker thread

    Where the thread that runs [Process] currently is.  Between two of
    these points [Process] holds [m_stateMutex] or does not block, so the
    code between them is run as one step. *)
Inductive WorkerPC :=
| pcNone                 (* no thread: IsRunning() is false *)
| pcStart                (* Create() returned, Process() not entered yet *)
| pcPrompt (i : nat)     (* inside m_buttons[i]->PromptForInput, mutex released *)
| pcSave                 (* loop left and mutex released, before SaveButtonMap *)
| pcCheckMotion          (* before reading m_bInMotion under m_motionMutex *)
| pcSettle               (* inside m_motionlessEvent.WaitMSec *)
| pcRemove.              (* before RemoveHooks *)

#[global] Instance WorkerPC_eq_dec : EqDecision WorkerPC.
Proof. solve_decision. Defined.

(** Registrations held by the peripheral manager and the input manager,
    counted per kind. *)
Record Hooks := mkHooks {
  buttonMappers : nat;
  observers : nat;
  keyboardHandlers : nat;
  mouseHandlers : nat;
}.

#[global] Instance Hooks_eq_dec : EqDecision Hooks.
Proof. solve_decision. Defined.

Section Wizard.

Context {B : Type} `{IFeatureButton B}.

(** ** The object

    The members of the class, those of its base classes that the file
    reads ([m_bStop] and the thread of CThread, the callbacks that
    IButtonMapper keeps for the peripheral layer and hands out through
    [ButtonMapCallbacks()]), the registrations the wizard holds with the
    managers, and the trace. *)
Record Wizard := mkWizard {
  m_bEmulation : bool;
  m_strControllerId : string;
  m_buttons : list B;                       (* button objects, addressed by position *)
  m_currentButton : option nat;             (* nullptr is None *)
  m_currentDirection : ANALOG_STICK_DIRECTION;
  m_history : gset CDriverPrimitive;
  m_bInMotion : gset nat;
  m_inputEvent : bool;                      (* CEvent: signaled or not *)
  m_motionlessEvent : bool;
  m_bStop : bool;                           (* CThread *)
  m_thread : WorkerPC;                      (* CThread *)
  m_callbacks : list string;                (* IButtonMapper::ButtonMapCallbacks() *)
  hooks : Hooks;                            (* g_peripherals and CInputManager *)
  trace : list Effect;                      (* most recent first *)
}.

Definition set_buttons (f : list B -> list B) (w : Wizard) : Wizard :=
  mkWizard (m_bEmulation w) (m_strControllerId w) (f (m_buttons w))
    (m_currentButton w) (m_currentDirection w) (m_history w) (m_bInMotion w)
    (m_inputEvent w) (m_motionlessEvent w) (m_bStop w) (m_thread w)
    (m_callbacks w) (hooks w) (trace w).

Definition set_controllerId (s : string) (w : Wizard) : Wizard :=
  mkWizard (m_bEmulation w) s (m_buttons w)
    (m_currentButton w) (m_currentDirection w) (m_history w) (m_bInMotion w)
    (m_inputEvent w) (m_motionlessEvent w) (m_bStop w) (m_thread w)
    (m_callbacks w) (hooks w) (trace w).

Definition set_currentButton (c : option nat) (w : Wizard) : Wizard :=
  mkWizard (m_bEmulation w) (m_strControllerId w) (m_buttons w)
    c (m_currentDirection w) (m_history w) (m_bInMotion w)
    (m_inputEvent w) (m_motionlessEvent w) (m_bStop w) (m_thread w)
    (m_callbacks w) (hooks w) (trace w).

Definition set_currentDirection (d : ANALOG_STICK_DIRECTION) (w : Wizard) : Wizard :=
  mkWizard (m_bEmulation w) (m_strControllerId w) (m_buttons w)
    (m_currentButton w) d (m_history w) (m_bInMotion w)
    (m_inputEvent w) (m_motionlessEvent w) (m_bStop w) (m_thread w)
    (m_callbacks w) (hooks w) (trace w).

Definition set_history (f : gset CDriverPrimitive -> gset CDriverPrimitive)
    (w : Wizard) : Wizard :=
  mkWizard (m_bEmulation w) (m_strControllerId w) (m_buttons w)
    (m_currentButton w) (m_currentDirection w) (f (m_history w)) (m_bInMotion w)
    (m_inputEvent w) (m_motionlessEvent w) (m_bStop w) (m_thread w)
    (m_callbacks w) (hooks w) (trace w).

Definition set_bInMotion (f : gset nat -> gset nat) (w : Wizard) : Wizard :=
  mkWizard (m_bEmulation w) (m_strControllerId w) (m_buttons w)
    (m_currentButton w) (m_currentDirection w) (m_history w) (f (m_bInMotion w))
    (m_inputEvent w) (m_motionlessEvent w) (m_bStop w) (m_thread w)
    (m_callbacks w) (hooks w) (trace w).

Definition set_inputEvent (b : bool) (w : Wizard) : Wizard :=
  mkWizard (m_bEmulation w) (m_strControllerId w) (m_buttons w)
    (m_currentButton w) (m_currentDirection w) (m_history w) (m_bInMotion w)
    b (m_motionlessEvent w) (m_bStop w) (m_thread w)
    (m_callbacks w) (hooks w) (trace w).

Definition set_motionlessEvent (b : bool) (w : Wizard) : Wizard :=
  mkWizard (m_bEmulation w) (m_strControllerId w) (m_buttons w)
    (m_currentButton w) (m_currentDirection w) (m_history w) (m_bInMotion w)
    (m_inputEvent w) b (m_bStop w) (m_thread w)
    (m_callbacks w) (hooks w) (trace w).

Definition set_bStop (b : bool) (w : Wizard) : Wizard :=
  mkWizard (m_bEmulation w) (m_strControllerId w) (m_buttons w)
    (m_currentButton w) (m_currentDirection w) (m_history w) (m_bInMotion w)
    (m_inputEvent w) (m_motionlessEvent w) b (m_thread w)
    (m_callbacks w) (hooks w) (trace w).

Definition set_thread (pc : WorkerPC) (w : Wizard) : Wizard :=
  mkWizard (m_bEmulation w) (m_strControllerId w) (m_buttons w)
    (m_currentButton w) (m_currentDirection w) (m_history w) (m_bInMotion w)
    (m_inputEvent w) (m_motionlessEvent w) (m_bStop w) pc
    (m_callbacks w) (hooks w) (trace w).

Definition set_hooks (f : Hooks -> Hooks) (w : Wizard) : Wizard :=
  mkWizard (m_bEmulation w) (m_strControllerId w) (m_buttons w)
    (m_currentButton w) (m_currentDirection w) (m_history w) (m_bInMotion w)
    (m_inputEvent w) (m_motionlessEvent w) (m_bStop w) (m_thread w)
    (m_callbacks w) (f (hooks w)) (trace w).

Definition emit (e : Effect) (w : Wizard) : Wizard :=
  mkWizard (m_bEmulation w) (m_strControllerId w) (m_buttons w)
    (m_currentButton w) (m_currentDirection w) (m_history w) (m_bInMotion w)
    (m_inputEvent w) (m_motionlessEvent w) (m_bStop w) (m_thread w)
    (m_callbacks w) (hooks w) (e :: trace w).

(** ** CEvent and CThread, as far as the wizard uses them *)

(** Modelled from the spec: CEvent::Set and CEvent::Reset on the two wait
    signals; a signal is latched until it is reset or consumed by a wait. *)
Definition m_inputEvent_Set (w : Wizard) : Wizard :=
  emit EInputEventSet (set_inputEvent true w).

Definition m_inputEvent_Reset (w : Wizard) : Wizard :=
  emit EInputEventReset (set_inputEvent false w).

Definition m_motionlessEvent_Set (w : Wizard) : Wizard :=
  emit EMotionlessEventSet (set_motionlessEvent true w).

Definition m_motionlessEvent_Reset (w : Wizard) : Wizard :=
  emit EMotionlessEventReset (set_motionlessEvent false w).

(** Modelled from the spec: CEvent::WaitMSec(ms) blocks until the signal
    fires or [ms] milliseconds have passed, whichever comes first.
    [fires] is the time after which the signal fires, counted from the
    call: [Some 0] when it is latched already, [None] when it never fires.
    The result is whether the wait saw the signal, and the time spent
    blocked. *)
Definition WaitMSec (ms : Z) (fires : option Z) : bool * Z :=
  match fires with
  | Some t => if t <=? ms then (true, Z.max 0 t) else (false, ms)
  | None => (false, ms)
  end.

(** Modelled from the spec: CThread::IsRunning, true from Create() until
    the thread function has returned. *)
Definition IsRunning (w : Wizard) : bool :=
  bool_decide (m_thread w ≠ pcNone).

(** Modelled from the spec: CThread::StopThread(false) raises the stop flag
    and returns at once. *)
Definition StopThread_nowait (w : Wizard) : Wizard :=
  emit (EStopThread false) (set_bStop true w).

(** Modelled from the spec: CThread::Create clears the stop flag and
    schedules the thread function. *)
Definition Create (w : Wizard) : Wizard :=
  emit ECreate (set_thread pcStart (set_bStop false w)).

(** ** Member functions *)

Definition InitializeState (w : Wizard) : Wizard :=
  emit EInitializeState
    (set_history (fun _ => ∅)
       (set_currentDirection UNKNOWN (set_currentButton None w))).

(** [Abort(false)]: the request without the join. *)
Definition Abort_nowait (w : Wizard) : bool * Wizard :=
  if IsRunning w then
    (true, m_motionlessEvent_Set (m_inputEvent_Set (StopThread_nowait w)))
  else (false, w).

Definition OnMotion (bm : nat) (w : Wizard) : Wizard :=
  emit (EOnMotion bm)
    (set_bInMotion (fun s => {[bm]} ∪ s) (m_motionlessEvent_Reset w)).

Definition OnMotionless (bm : nat) (w : Wizard) : Wizard :=
  let w := set_bInMotion (fun s => s ∖ {[bm]}) w in
  if bool_decide (m_bInMotion w = ∅) then m_motionlessEvent_Set w else w.

Definition OnEventFrame (bm : nat) (bMotion : bool) (w : Wizard) : Wizard :=
  if bool_decide (bm ∈ m_bInMotion w) && negb bMotion
  then OnMotionless bm w else w.

Definition is_cancel (p : CDriverPrimitive) : bool :=
  bool_decide (PType p = BUTTON) && bool_decide (Index p = ESC_KEY_CODE).

Definition MapPrimitive (bm : IButtonMap) (p : CDriverPrimitive) (w : Wizard)
    : bool * Wizard :=
  if is_cancel p then Abort_nowait w
  else if bool_decide (p ∈ m_history w) then (true, w)
  else if IsIgnored bm p then (true, w)
  else
    let currentButton := m_currentButton w in
    let currentDirection := m_currentDirection w in
    match currentButton ≫= (fun i => m_buttons w !! i) with
    | Some button =>
        let feature := Feature button in
        let '(bHandled, w) :=
          match FType feature with
          | SCALAR => (true, emit (EAddScalar (DeviceName bm) (Name feature) p) w)
          | ANALOG_STICK =>
              (true, emit (EAddAnalogStick (DeviceName bm) (Name feature)
                             currentDirection p) w)
          | _ => (false, w)
          end in
        if bHandled then
          (true, m_inputEvent_Set (OnMotion (bm_ptr bm)
                                     (set_history (fun s => {[p]} ∪ s) w)))
        else (false, w)
    | None => (false, w)
    end.

Definition OnKeyPress (w : Wizard) : bool * Wizard := Abort_nowait w.

Definition OnButtonPress (w : Wizard) : bool * Wizard := Abort_nowait w.

Definition OnUnfocus (button : option nat) (w : Wizard) : Wizard :=
  if bool_decide (button = m_currentButton w) then (Abort_nowait w).2 else w.

(** ** Hooks *)

Definition InstallHooks (w : Wizard) : Wizard :=
  let w := set_hooks (fun h => mkHooks (S (buttonMappers h)) (observers h)
                        (keyboardHandlers h) (mouseHandlers h)) w in
  let w := set_hooks (fun h => mkHooks (buttonMappers h) (S (observers h))
                        (keyboardHandlers h) (mouseHandlers h)) w in
  let w := if negb (m_bEmulation w)
           then set_hooks (fun h => mkHooks (buttonMappers h) (observers h)
                             (S (keyboardHandlers h)) (mouseHandlers h)) w
           else w in
  let w := set_hooks (fun h => mkHooks (buttonMappers h) (observers h)
                        (keyboardHandlers h) (S (mouseHandlers h))) w in
  emit EInstallHooks w.

(** Unregistering something that is not registered does nothing. *)
Definition RemoveHooks (w : Wizard) : Wizard :=
  let w := set_hooks (fun h => mkHooks (buttonMappers h) (observers h)
                        (keyboardHandlers h) (Nat.pred (mouseHandlers h))) w in
  let w := if negb (m_bEmulation w)
           then set_hooks (fun h => mkHooks (buttonMappers h) (observers h)
                             (Nat.pred (keyboardHandlers h)) (mouseHandlers h)) w
           else w in
  let w := set_hooks (fun h => mkHooks (buttonMappers h) (Nat.pred (observers h))
                        (keyboardHandlers h) (mouseHandlers h)) w in
  let w := set_hooks (fun h => mkHooks (Nat.pred (buttonMappers h)) (observers h)
                        (keyboardHandlers h) (mouseHandlers h)) w in
  emit ERemoveHooks w.

Inductive ObservableMessage :=
| ObservableMessagePeripheralsChanged
| ObservableMessageOther.

Definition Notify (msg : ObservableMessage) (w : Wizard) : Wizard :=
  match msg with
  | ObservableMessagePeripheralsChanged =>
      let w := set_hooks (fun h => mkHooks (Nat.pred (buttonMappers h)) (observers h)
                            (keyboardHandlers h) (mouseHandlers h)) w in
      set_hooks (fun h => mkHooks (S (buttonMappers h)) (observers h)
                   (keyboardHandlers h) (mouseHandlers h)) w
  | ObservableMessageOther => w
  end.

(** ** Process, from one blocking point to the next *)

(** The statement after the [for] loop, up to the release of the mutex. *)
Definition finish_loop (w : Wizard) : Wizard :=
  set_thread pcSave (InitializeState w).

Definition reset_button (i : nat) (w : Wizard) : Wizard :=
  emit (EButtonReset i) (set_buttons (alter Reset i) w).

(** The [for] loop entered at the buttons [idxs], run under the mutex until
    a button has to be prompted or the loop is left. *)
Fixpoint for_loop (idxs : list nat) (w : Wizard) : Wizard :=
  match idxs with
  | [] => finish_loop w
  | i :: rest =>
      let w := set_currentButton (Some i) w in
      match m_buttons w !! i with
      | None => finish_loop w
      | Some button =>
          if IsFinished button then
            let w := reset_button i w in
            if m_bStop w then finish_loop w else for_loop rest w
          else
            emit (EPromptForInput i)
              (set_thread (pcPrompt i)
                 (set_currentDirection (GetDirection button) w))
      end
  end.

(** The buttons after position [i]. *)
Definition buttons_after (i : nat) (w : Wizard) : list nat :=
  seq (S i) (length (m_buttons w) - S i).

(** [PromptForInput] of button [i] comes back: its result is tested, the
    mutex is taken again and the loops go on.  Modelled from the spec: the
    prompt blocks on the latched wait event, and coming back from the wait
    consumes the latch. *)
Definition prompt_returns (i : nat) (w : Wizard) : Wizard :=
  match m_buttons w !! i with
  | None => finish_loop w
  | Some button =>
      let '(button', ok) := PromptForInput button (m_inputEvent w) in
      let w := set_inputEvent false (set_buttons (fun l => <[i := button']> l) w) in
      let w := if negb ok then (Abort_nowait w).2 else w in
      if m_bStop w then
        finish_loop (reset_button i w)
      else if IsFinished button' then
        let w := reset_button i w in
        if m_bStop w then finish_loop w else for_loop (buttons_after i w) w
      else
        emit (EPromptForInput i)
          (set_thread (pcPrompt i)
             (set_currentDirection (GetDirection button') w))
  end.

Definition save_button_maps (w : Wizard) : Wizard :=
  fold_left (fun w device => emit (ESaveButtonMap device) w) (m_callbacks w) w.

(** [m_motionlessEvent.WaitMSec(POST_MAPPING_WAIT_TIME_MS)] coming back, the
    signal firing after [fires]: a wait that saw the signal consumes it. *)
Definition settle_wait (fires : option Z) (w : Wizard) : Wizard :=
  let '(fired, elapsed) := WaitMSec POST_MAPPING_WAIT_TIME_MS fires in
  let w := if fired then set_motionlessEvent false w else w in
  set_thread pcRemove (emit (EWaitMSec POST_MAPPING_WAIT_TIME_MS elapsed) w).

(** The test of the motion set and the call of the wait: on a signal that
    is latched already the wait comes back at once, otherwise the worker
    blocks. *)
Definition check_motion (w : Wizard) : Wizard :=
  let bInMotion := negb (bool_decide (m_bInMotion w = ∅)) in
  if bInMotion then
    if m_motionlessEvent w then settle_wait (Some 0) w else set_thread pcSettle w
  else set_thread pcRemove w.

(** The blocked wait comes back: the signal has fired meanwhile, [dt] after
    the call, or the timeout has run out. *)
Definition settle_returns (dt : Z) (w : Wizard) : Wizard :=
  settle_wait (if m_motionlessEvent w then Some dt else None) w.

(** One step of the worker thread; [dt] is only read when the blocked
    settle wait comes back. *)
Definition Process_step (dt : Z) (w : Wizard) : Wizard :=
  match m_thread w with
  | pcNone => w
  | pcStart =>
      let w := InstallHooks w in
      for_loop (seq 0 (length (m_buttons w))) w
  | pcPrompt i => prompt_returns i w
  | pcSave => set_thread pcCheckMotion (save_button_maps w)
  | pcCheckMotion => check_motion w
  | pcSettle => settle_returns dt w
  | pcRemove => set_thread pcNone (RemoveHooks w)
  end.

(** [n] steps of the worker, the waits taking the times [dts]. *)
Fixpoint Process_steps (n : nat) (dts : nat -> Z) (w : Wizard) : Wizard :=
  match n with
  | O => w
  | S n => Process_steps n (fun k => dts (S k)) (Process_step (dts O) w)
  end.

(** Modelled from the spec: CThread::StopThread(true) raises the stop flag
    and blocks the caller until the thread function has returned.  With the
    flag raised the worker needs at most six steps to return. *)
Definition StopThread_wait (dts : nat -> Z) (w : Wizard) : Wizard :=
  Process_steps 6 dts (emit (EStopThread true) (set_bStop true w)).

Definition Abort (bWait : bool) (dts : nat -> Z) (w : Wizard) : bool * Wizard :=
  if IsRunning w then
    let w := StopThread_nowait w in
    let w := m_inputEvent_Set w in
    let w := m_motionlessEvent_Set w in
    let w := if bWait then StopThread_wait dts w else w in
    (true, w)
  else (false, w).

Definition Run (strControllerId : string) (buttons : list B) (dts : nat -> Z)
    (w : Wizard) : Wizard :=
  let w := (Abort true dts w).2 in
  let w := set_controllerId strControllerId w in
  let w := set_buttons (fun _ => buttons) w in
  let w := m_inputEvent_Reset w in
  let w := m_motionlessEvent_Reset w in
  let w := set_bInMotion (fun _ => ∅) w in
  let w := InitializeState w in
  Create w.

(** The object after its constructor. *)
Definition CGUIConfigurationWizard (bEmulation : bool) (callbacks : list string)
    : Wizard :=
  InitializeState
    (mkWizard bEmulation EmptyString [] None UNKNOWN ∅ ∅ false false false pcNone
       callbacks (mkHooks 0 0 0 0) []).

(** ** The wizard among its callers

    The calls the object can receive, and the worker's own steps, in any
    order.  Modelled from the spec: the peripheral manager and the input
    manager only call handlers that are registered with them. *)
Inductive Event :=
| CallRun (strControllerId : string) (buttons : list B) (dts : nat -> Z)
| CallAbort (bWait : bool) (dts : nat -> Z)
| CallOnUnfocus (button : option nat)
| Worker (dt : Z)
| DeliverMapPrimitive (bm : IButtonMap) (p : CDriverPrimitive)
| DeliverOnEventFrame (bm : nat) (bMotion : bool)
| DeliverOnKeyPress
| DeliverOnButtonPress
| DeliverNotify (msg : ObservableMessage).

Definition step (e : Event) (w : Wizard) : Wizard :=
  match e with
  | CallRun id buttons dts => Run id buttons dts w
  | CallAbort bWait dts => (Abort bWait dts w).2
  | CallOnUnfocus button => OnUnfocus button w
  | Worker dt => Process_step dt w
  | DeliverMapPrimitive bm p =>
      if bool_decide (buttonMappers (hooks w) ≠ O) then (MapPrimitive bm p w).2 else w
  | DeliverOnEventFrame bm bMotion =>
      if bool_decide (buttonMappers (hooks w) ≠ O) then OnEventFrame bm bMotion w else w
  | DeliverOnKeyPress =>
      if bool_decide (keyboardHandlers (hooks w) ≠ O) then (OnKeyPress w).2 else w
  | DeliverOnButtonPress =>
      if bool_decide (mouseHandlers (hooks w) ≠ O) then (OnButtonPress w).2 else w
  | DeliverNotify msg =>
      if bool_decide (observers (hooks w) ≠ O) then Notify msg w else w
  end.

Definition run (evs : list Event) (w : Wizard) : Wizard :=
  fold_left (fun w e => step e w) evs w.

(** ** Reading the trace *)

(** Records of primitive [p] made since the last [InitializeState]. *)
Fixpoint session_records (p : CDriverPrimitive) (t : list Effect) : nat :=
  match t with
  | [] => O
  | EInitializeState :: _ => O
  | EAddScalar _ _ q :: t | EAddAnalogStick _ _ _ q :: t =>
      ((if bool_decide (q = p) then 1 else 0) + session_records p t)%nat
  | _ :: t => session_records p t
  end.

Definition is_record (e : Effect) : bool :=
  match e with
  | EAddScalar _ _ _ | EAddAnalogStick _ _ _ _ => true
  | _ => false
  end.

Definition record_of (p : CDriverPrimitive) (e : Effect) : bool :=
  match e with
  | EAddScalar _ _ q | EAddAnalogStick _ _ _ q => bool_decide (q = p)
  | _ => false
  end.

(** The effects of [w'] that [w] does not have yet. *)
Definition new_effects (w w' : Wizard) : list Effect :=
  take (length (trace w') - length (trace w)) (trace w').

Definition installed (pc : WorkerPC) : bool :=
  match pc with
  | pcNone | pcStart => false
  | _ => true
  end.

Definition hooks_on (bEmulation : bool) : Hooks :=
  mkHooks 1 1 (if bEmulation then 0 else 1) 1.

Definition hooks_off : Hooks := mkHooks 0 0 0 0.

(** ** The claimed set and the records of a session *)

(** No cancel input is ever claimed, and a primitive has one record in the
    running session when it is claimed and none otherwise. *)
Definition SessionInv (w : Wizard) : Prop :=
  ∀ p, (p ∈ m_history w → is_cancel p = false) ∧
       session_records p (trace w) = if bool_decide (p ∈ m_history w) then 1%nat else 0%nat.

Definition quiet (e : Effect) : bool :=
  match e with
  | EAddScalar _ _ _ | EAddAnalogStick _ _ _ _ | EInitializeState => false
  | _ => true
  end.

(** Whether the current feature is one [MapPrimitive] records for. *)
Definition recordable (w : Wizard) : bool :=
  match m_currentButton w ≫= (fun i => m_buttons w !! i) with
  | Some button =>
      match FType (Feature button) with
      | SCALAR | ANALOG_STICK => true
      | _ => false
      end
  | None => false
  end.

(** What one call of [MapPrimitive] commits, read off the object before and
    after: the claimed set gains the primitive, the motion tracker is
    signalled and the sequencer is woken exactly when a record was added,
    and nothing changes when the current feature cannot be recorded for. *)
Definition commits_only_on_record (bm : IButtonMap) (p : CDriverPrimitive)
    (w : Wizard) : Prop :=
  let w' := (MapPrimitive bm p w).2 in
  let recorded := existsb is_record (new_effects w w') in
  bool_decide (p ∈ m_history w' ∧ p ∉ m_history w) = recorded ∧
  bool_decide (EOnMotion (bm_ptr bm) ∈ new_effects w w') = recorded ∧
  bool_decide (EInputEventSet ∈ new_effects w w') = recorded ∧
  (recordable w = false → w' = w).



(** The registrations against the worker: all of them while the worker is
    between [InstallHooks] and [RemoveHooks], none otherwise. *)
Definition HooksInv (w : Wizard) : Prop :=
  hooks w = if installed (m_thread w) then hooks_on (m_bEmulation w) else hooks_off.

(** Steps the worker still needs at most once the stop flag is raised. *)
Definition rank (pc : WorkerPC) : nat :=
  match pc with
  | pcNone => 0
  | pcRemove => 1
  | pcSettle => 2
  | pcCheckMotion => 3
  | pcSave => 4
  | pcPrompt _ => 5
  | pcStart => 6
  end.

(** Devices whose button map received a record since the last [Create],
    and devices whose button map was saved since then. *)
Fixpoint touched_devices (t : list Effect) : list string :=
  match t with
  | [] => []
  | ECreate :: _ => []
  | EAddScalar device _ _ :: t | EAddAnalogStick device _ _ _ :: t =>
      device :: touched_devices t
  | _ :: t => touched_devices t
  end.

Fixpoint saved_devices (t : list Effect) : list string :=
  match t with
  | [] => []
  | ECreate :: _ => []
  | ESaveButtonMap device :: t => device :: saved_devices t
  | _ :: t => saved_devices t
  end.

(** A prompt that fails leaves the run going: the stop flag stays down
    after the worker's step. *)
Definition failed_prompt_spares_run (w : Wizard) : Prop :=
  ∀ i button dt,
    m_thread w = pcPrompt i → m_buttons w !! i = Some button →
    (PromptForInput button (m_inputEvent w)).2 = false →
    m_bStop w = false →
    m_bStop (Process_step dt w) = false.

(** The saves of a run against its records: the same devices. *)
Definition saves_touched_only (w : Wizard) : Prop :=
  list_to_set (saved_devices (trace w))
    =@{gset string} list_to_set (touched_devices (trace w)).

(** The session members as [InitializeState] leaves them. *)
Definition session_idle (w : Wizard) : Prop :=
  m_currentButton w = None ∧ m_currentDirection w = UNKNOWN ∧ m_history w = ∅.


(** The object after its constructor and the calls [evs]. *)
Definition wizard_after (bEmulation : bool) (callbacks : list string)
    (evs : list Event) : Wizard :=
  run evs (CGUIConfigurationWizard bEmulation callbacks).

(** ** The worker against the session members

    While the worker is inside the prompt of button [i], that button is the
    current one, it is not finished, and the current direction is the one
    it asks for; at every other point there is no current button. *)
Definition PromptInv (w : Wizard) : Prop :=
  match m_thread w with
  | pcPrompt i =>
      m_currentButton w = Some i ∧
      ∃ button, m_buttons w !! i = Some button ∧ IsFinished button = false ∧
                m_currentDirection w = GetDirection button
  | _ => m_currentButton w = None
  end.

(** The first button from position [k] on that is not finished. *)
Fixpoint first_unfinished (k : nat) (buttons : list B) : option nat :=
  match buttons with
  | [] => None
  | button :: rest =>
      if IsFinished button then first_unfinished (S k) rest else Some k
  end.

(** Where the [for] loop stops when it is entered at position [k]. *)
Definition loop_target (k : nat) (buttons : list B) : WorkerPC :=
  match first_unfinished k (drop k buttons) with
  | Some i => pcPrompt i
  | None => pcSave
  end.

(** Steps of the worker among the calls [evs]. *)
Definition worker_steps (evs : list Event) : nat :=
  length (filter (fun e => match e with Worker _ => true | _ => false end = true) evs).

Definition is_CallRun (e : Event) : bool :=
  match e with
  | CallRun _ _ _ => true
  | _ => false
  end.

(** A motion set that is not empty tells a record made since the last
    [Create]. *)
Definition MotionInv (w : Wizard) : Prop :=
  m_bInMotion w ≠ ∅ → touched_devices (trace w) ≠ [].

(** From [w] to [w'] the motion set has not grown and no worker was
    created. *)
Definition calm (w w' : Wizard) : Prop :=
  m_bInMotion w' ⊆ m_bInMotion w ∧ ∃ es, trace w' = es ++ trace w ∧ ECreate ∉ es.

(** ** The trace of a run

    Effects that are neither a creation of the worker, nor a save, nor an
    installation or removal of the hooks. *)
Definition plain_effect (e : Effect) : bool :=
  match e with
  | ECreate | ESaveButtonMap _ | EInstallHooks | ERemoveHooks => false
  | _ => true
  end.

(** From [w] to [w'] the callbacks are the same and only plain effects were
    added. *)
Definition plain (w w' : Wizard) : Prop :=
  m_callbacks w' = m_callbacks w ∧
  ∃ es, trace w' = es ++ trace w ∧ forallb plain_effect es = true.

(** Installations of the hooks in the trace that no removal has answered. *)
Fixpoint hook_depth (t : list Effect) : Z :=
  match t with
  | [] => 0
  | EInstallHooks :: t => hook_depth t + 1
  | ERemoveHooks :: t => hook_depth t - 1
  | _ :: t => hook_depth t
  end.

(** The part of [Process] the worker is in: not started, in the feature
    loop, past the saves; 0 when there is no worker. *)
Definition phase (pc : WorkerPC) : nat :=
  match pc with
  | pcNone => 0
  | pcStart => 1
  | pcPrompt _ | pcSave => 2
  | pcCheckMotion | pcSettle | pcRemove => 3
  end.

(** The trace against the worker: one unanswered installation exactly while
    the hooks are installed; no save of the run before the loop is left,
    and one save per callback after. *)
Definition TraceInv (w : Wizard) : Prop :=
  hook_depth (trace w) = (if installed (m_thread w) then 1 else 0) ∧
  match phase (m_thread w) with
  | 0%nat =>
      saved_devices (trace w) = [] ∨ saved_devices (trace w) = rev (m_callbacks w)
  | 3%nat => saved_devices (trace w) = rev (m_callbacks w)
  | _ => saved_devices (trace w) = []
  end.

(** ** Records against the registry of callbacks *)

(** The device of a record. *)
Definition record_device (e : Effect) : option string :=
  match e with
  | EAddScalar device _ _ | EAddAnalogStick device _ _ _ => Some device
  | _ => None
  end.

(** Every record of the trace went to a device that has its callback among
    [cbs]. *)
Definition records_from (cbs : list string) (t : list Effect) : bool :=
  forallb (fun e => match record_device e with
                    | Some device => bool_decide (device ∈ cbs)
                    | None => true
                    end) t.

(** Modelled from the spec: the peripheral layer, which is not in the
    sources at hand, hands primitives to the button mapper through the
    button maps of the devices it has attached the mapper to, and each of
    these has its callback in [ButtonMapCallbacks()].  [delivered_by cbs evs]
    says this of the deliveries among [evs]. *)
Definition delivered_by (cbs : list string) (evs : list Event) : bool :=
  forallb (fun e => match e with
                    | DeliverMapPrimitive bm _ => bool_decide (DeviceName bm ∈ cbs)
                    | _ => true
                    end) evs.

End Wizard.

Arguments Wizard : clear implicits.
Arguments Event : clear implicits.

(** ** A feature button to run the wizard on

    Modelled from the spec: a feature prompt (the GUI feature buttons are
    not part of the sources).  The button asks for one input per entry of
    [fb_directions] (a scalar feature has one entry), a prompt that comes
    back without the wait event reports failure, and [Reset] forgets the
    progress. *)
Record GUIFeatureButton := mkButton {
  fb_feature : CControllerFeature;
  fb_directions : list ANALOG_STICK_DIRECTION;
  fb_answered : nat;
}.

#[global] Instance GUIFeatureButton_IFeatureButton : IFeatureButton GUIFeatureButton := {
  Feature := fb_feature;
  IsFinished b := bool_decide (length (fb_directions b) ≤ fb_answered b)%nat;
  GetDirection b := nth (fb_answered b) (fb_directions b) UNKNOWN;
  PromptForInput b woken :=
    if woken
    then (mkButton (fb_feature b) (fb_directions b) (S (fb_answered b)), true)
    else (b, false);
  Reset b := mkButton (fb_feature b) (fb_directions b) 0;
}.

Definition scalar_button (name : string) : GUIFeatureButton :=
  mkButton (mkFeature name SCALAR) [UNKNOWN] 0.

Definition analog_stick_button (name : string) : GUIFeatureButton :=
  mkButton (mkFeature name ANALOG_STICK) [UP; DOWN; LEFT; RIGHT] 0.

Definition joystick0 : IButtonMap := mkButtonMap 0 "joystick0" (fun _ => false).

Definition no_wait : nat -> Z := fun _ => 0.

(** ** The scenario of the specification *)

Definition button3 : CDriverPrimitive := mkPrimitive BUTTON 3 0.

Definition axis0 : CDriverPrimitive := mkPrimitive SEMIAXIS 0 1.

Definition escape : CDriverPrimitive := mkPrimitive BUTTON 27 0.

Definition scenario_buttons : list GUIFeatureButton :=
  [scalar_button "A"; analog_stick_button "Left"].

(** The run is started, the worker prompts for "A", button 3 is pressed, the
    worker prompts for "Left" upwards and axis 0 is moved. *)
Definition scenario : list (Event GUIFeatureButton) :=
  [CallRun "game.controller.default" scenario_buttons no_wait;
   Worker 0;
   DeliverMapPrimitive joystick0 button3;
   Worker 0;
   DeliverMapPrimitive joystick0 axis0].

(** The scenario played to its end: the other three directions of "Left"
    are answered by three more axis inputs, the loop is left and the saves
    are made.  Axis 0 is still in motion. *)
Definition scenario_to_the_saves : list (Event GUIFeatureButton) :=
  scenario ++
  [Worker 0; DeliverMapPrimitive joystick0 (mkPrimitive SEMIAXIS 0 2);
   Worker 0; DeliverMapPrimitive joystick0 (mkPrimitive SEMIAXIS 1 1);
   Worker 0; DeliverMapPrimitive joystick0 (mkPrimitive SEMIAXIS 1 2);
   Worker 0; Worker 0].

(** The worker then blocks in the settle wait, and the axis comes to rest. *)
Definition scenario_settling : list (Event GUIFeatureButton) :=
  scenario_to_the_saves ++ [Worker 0; DeliverOnEventFrame 0 false].

(** * Properties *)

Section Properties.

Context {B : Type} `{IFeatureButton B}.

Implicit Types (w : Wizard B) (p : CDriverPrimitive) (bm : IButtonMap).

Lemma SessionInv_ext w w' :
  m_history w' = m_history w → trace w' = trace w → SessionInv w → SessionInv w'.
Proof. intros Hh Ht Hi p. rewrite Hh, Ht. apply Hi. Qed.

Lemma SessionInv_emit e w :
  quiet e = true → SessionInv w → SessionInv (emit e w).
Proof.
  intros Hq Hi p. specialize (Hi p). destruct e; try discriminate Hq; exact Hi.
Qed.

Lemma SessionInv_InitializeState w : SessionInv (InitializeState w).
Proof.
  intros p. cbn. split; [set_solver|].
  rewrite bool_decide_eq_false_2; [done | set_solver].
Qed.

Lemma SessionInv_frame w :
  SessionInv w →
  (∀ pc, SessionInv (set_thread pc w)) ∧
  (∀ f, SessionInv (set_buttons f w)) ∧
  (∀ id, SessionInv (set_controllerId id w)) ∧
  (∀ c, SessionInv (set_currentButton c w)) ∧
  (∀ d, SessionInv (set_currentDirection d w)) ∧
  (∀ f, SessionInv (set_bInMotion f w)) ∧
  (∀ b, SessionInv (set_inputEvent b w)) ∧
  (∀ b, SessionInv (set_motionlessEvent b w)) ∧
  (∀ b, SessionInv (set_bStop b w)) ∧
  (∀ f, SessionInv (set_hooks f w)).
Proof.
  intros Hi. repeat lazymatch goal with |- _ ∧ _ => split end;
    intros ?; exact Hi.
Qed.

Ltac sess_step :=
  match goal with
  | |- SessionInv (emit _ _) => apply SessionInv_emit; [reflexivity|]
  | |- SessionInv (InitializeState _) => apply SessionInv_InitializeState
  | |- SessionInv (set_thread _ ?w) => refine (proj1 (SessionInv_frame w _) _)
  | |- SessionInv (set_buttons _ ?w) =>
      refine (proj1 (proj2 (SessionInv_frame w _)) _)
  | |- SessionInv (set_controllerId _ ?w) =>
      refine (proj1 (proj2 (proj2 (SessionInv_frame w _))) _)
  | |- SessionInv (set_currentButton _ ?w) =>
      refine (proj1 (proj2 (proj2 (proj2 (SessionInv_frame w _)))) _)
  | |- SessionInv (set_currentDirection _ ?w) =>
      refine (proj1 (proj2 (proj2 (proj2 (proj2 (SessionInv_frame w _))))) _)
  | |- SessionInv (set_bInMotion _ ?w) =>
      refine (proj1 (proj2 (proj2 (proj2 (proj2 (proj2 (SessionInv_frame w _)))))) _)
  | |- SessionInv (set_inputEvent _ ?w) =>
      refine (proj1 (proj2 (proj2 (proj2 (proj2 (proj2 (proj2
                (SessionInv_frame w _))))))) _)
  | |- SessionInv (set_motionlessEvent _ ?w) =>
      refine (proj1 (proj2 (proj2 (proj2 (proj2 (proj2 (proj2 (proj2
                (SessionInv_frame w _)))))))) _)
  | |- SessionInv (set_bStop _ ?w) =>
      refine (proj1 (proj2 (proj2 (proj2 (proj2 (proj2 (proj2 (proj2 (proj2
                (SessionInv_frame w _))))))))) _)
  | |- SessionInv (set_hooks _ ?w) =>
      refine (proj2 (proj2 (proj2 (proj2 (proj2 (proj2 (proj2 (proj2 (proj2
                (SessionInv_frame w _))))))))) _)
  | |- SessionInv (if ?b then _ else _) => destruct b eqn:?
  | |- SessionInv (snd (if ?b then _ else _)) => destruct b eqn:?; cbn [snd]
  | |- SessionInv (snd (_, _)) => cbn [snd]
  end.

Ltac sess := repeat sess_step; try assumption.

Lemma SessionInv_Abort_nowait w : SessionInv w → SessionInv (Abort_nowait w).2.
Proof.
  intros Hi. unfold Abort_nowait, m_motionlessEvent_Set, m_inputEvent_Set,
    StopThread_nowait. sess.
Qed.

Lemma SessionInv_OnMotion b w : SessionInv w → SessionInv (OnMotion b w).
Proof. intros Hi. unfold OnMotion, m_motionlessEvent_Reset. sess. Qed.

Lemma SessionInv_OnMotionless b w : SessionInv w → SessionInv (OnMotionless b w).
Proof. intros Hi. unfold OnMotionless, m_motionlessEvent_Set. sess. Qed.

Lemma SessionInv_OnEventFrame b m w :
  SessionInv w → SessionInv (OnEventFrame b m w).
Proof.
  intros Hi. unfold OnEventFrame. sess. by apply SessionInv_OnMotionless.
Qed.

(** A fresh record keeps the invariant: the primitive was not claimed and is
    not the cancel input. *)
Lemma SessionInv_record e p w :
  record_of p e = true → is_cancel p = false → p ∉ m_history w →
  SessionInv w → SessionInv (set_history (λ s, {[p]} ∪ s) (emit e w)).
Proof.
  intros He Hc Hp Hi q. destruct (Hi q) as [Hi1 Hi2]. split.
  - cbn. intros [->%elem_of_singleton| ?]%elem_of_union; auto.
  - change (trace (set_history (λ s, {[p]} ∪ s) (emit e w))) with (e :: trace w).
    change (m_history (set_history (λ s, {[p]} ∪ s) (emit e w)))
      with ({[p]} ∪ m_history w).
    assert (session_records q (e :: trace w)
            = ((if bool_decide (p = q) then 1 else 0) + session_records q (trace w))%nat)
      as -> by (destruct e; try discriminate He; cbn in *;
                apply bool_decide_eq_true in He; by subst).
    rewrite Hi2. destruct (decide (p = q)) as [->|Hne].
    + rewrite (bool_decide_eq_true_2 (q = q)), (bool_decide_eq_false_2 _ Hp),
        bool_decide_eq_true_2; [done|set_solver|done].
    + rewrite (bool_decide_eq_false_2 _ Hne). cbn [Nat.add].
      rewrite (bool_decide_ext (q ∈ {[p]} ∪ m_history w) (q ∈ m_history w));
        [done|set_solver].
Qed.

Lemma SessionInv_MapPrimitive bm p w :
  SessionInv w → SessionInv (MapPrimitive bm p w).2.
Proof.
  intros Hi. unfold MapPrimitive.
  destruct (is_cancel p) eqn:Hc; [by apply SessionInv_Abort_nowait|].
  case_bool_decide as Hh; [done|].
  destruct (IsIgnored bm p); [done|].
  destruct (m_currentButton w ≫= _) as [button|]; [|done].
  destruct (FType (Feature button)); cbn [snd]; try done;
    unfold m_inputEvent_Set; sess; apply SessionInv_OnMotion;
    (apply SessionInv_record; [by apply bool_decide_eq_true_2|done..]).
Qed.

Lemma SessionInv_finish_loop w : SessionInv (finish_loop w).
Proof. unfold finish_loop. sess. Qed.

Lemma SessionInv_for_loop idxs w : SessionInv w → SessionInv (for_loop idxs w).
Proof.
  revert w. induction idxs as [|i rest IH]; intros w Hi; cbn [for_loop].
  - apply SessionInv_finish_loop.
  - cbn -[finish_loop]. destruct (m_buttons w !! i) as [button|];
      [|apply SessionInv_finish_loop].
    destruct (IsFinished button); [|sess].
    destruct (m_bStop _); [apply SessionInv_finish_loop|].
    apply IH. unfold reset_button. sess.
Qed.

Lemma SessionInv_prompt_returns i w :
  SessionInv w → SessionInv (prompt_returns i w).
Proof.
  intros Hi. unfold prompt_returns.
  destruct (m_buttons w !! i) as [button|]; [|apply SessionInv_finish_loop].
  destruct (PromptForInput button (m_inputEvent w)) as [button' ok]. cbv zeta.
  set (w1 := if negb ok then _ else _).
  assert (SessionInv w1) as Hi1.
  { subst w1. destruct ok; cbn [negb]; [|apply SessionInv_Abort_nowait]; sess. }
  clearbody w1. destruct (m_bStop w1); [apply SessionInv_finish_loop|].
  destruct (IsFinished button'); [|sess].
  destruct (m_bStop (reset_button i w1)); [apply SessionInv_finish_loop|].
  apply SessionInv_for_loop. unfold reset_button. sess.
Qed.

Lemma SessionInv_save_button_maps w :
  SessionInv w → SessionInv (save_button_maps w).
Proof.
  unfold save_button_maps. generalize (m_callbacks w). intros l. revert w.
  induction l as [|d l IH]; intros w Hi; cbn [fold_left]; [done|].
  apply IH. sess.
Qed.

Lemma SessionInv_Process_step dt w :
  SessionInv w → SessionInv (Process_step dt w).
Proof.
  intros Hi. unfold Process_step. destruct (m_thread w); [done|..].
  - apply SessionInv_for_loop. unfold InstallHooks. sess.
  - by apply SessionInv_prompt_returns.
  - sess. by apply SessionInv_save_button_maps.
  - unfold check_motion, settle_wait. sess.
  - unfold settle_returns, settle_wait.
    destruct (WaitMSec _ _) as [fired elapsed]. sess.
  - unfold RemoveHooks. sess.
Qed.

Lemma SessionInv_Process_steps n dts w :
  SessionInv w → SessionInv (Process_steps n dts w).
Proof.
  revert dts w. induction n as [|n IH]; intros dts w Hi; cbn [Process_steps];
    [done|]. apply IH. by apply SessionInv_Process_step.
Qed.

Lemma SessionInv_Abort bWait dts w : SessionInv w → SessionInv (Abort bWait dts w).2.
Proof.
  intros Hi. unfold Abort. destruct (IsRunning w); cbn [snd]; [|done].
  destruct bWait.
  - unfold StopThread_wait. apply SessionInv_Process_steps.
    unfold m_motionlessEvent_Set, m_inputEvent_Set, StopThread_nowait. sess.
  - unfold m_motionlessEvent_Set, m_inputEvent_Set, StopThread_nowait. sess.
Qed.

Lemma SessionInv_Run id buttons dts w : SessionInv (Run id buttons dts w).
Proof. unfold Run, Create. sess. Qed.

Lemma SessionInv_step e w : SessionInv w → SessionInv (step e w).
Proof.
  intros Hi. destruct e; cbn [step].
  - apply SessionInv_Run.
  - by apply SessionInv_Abort.
  - unfold OnUnfocus. sess. by apply SessionInv_Abort_nowait.
  - by apply SessionInv_Process_step.
  - sess. by apply SessionInv_MapPrimitive.
  - sess. by apply SessionInv_OnEventFrame.
  - sess. by apply SessionInv_Abort_nowait.
  - sess. by apply SessionInv_Abort_nowait.
  - sess. unfold Notify. destruct msg; sess.
Qed.

Lemma SessionInv_run evs w : SessionInv w → SessionInv (run evs w).
Proof.
  revert w. induction evs as [|e evs IH]; intros w Hi; [done|].
  apply IH. by apply SessionInv_step.
Qed.

Lemma SessionInv_constructor bEmulation callbacks :
  SessionInv (CGUIConfigurationWizard (B:=B) bEmulation callbacks).
Proof. apply SessionInv_InitializeState. Qed.

(** ** The classifier *)

Lemma new_effects_app w w' es :
  trace w' = es ++ trace w → new_effects w w' = es.
Proof.
  intros Ht. unfold new_effects. rewrite Ht, length_app.
  replace (length es + length (trace w) - length (trace w))%nat with (length es) by lia.
  by rewrite take_app_length.
Qed.

Lemma is_cancel_false p :
  is_cancel p = false ↔ PType p ≠ BUTTON ∨ Index p ≠ ESC_KEY_CODE.
Proof.
  unfold is_cancel. rewrite andb_false_iff, !bool_decide_eq_false. tauto.
Qed.

Lemma Abort_false dts w : Abort false dts w = Abort_nowait w.
Proof. reflexivity. Qed.

(** The three outcomes of [MapPrimitive] on a primitive that is not the
    cancel input. *)
Lemma MapPrimitive_not_cancel bm p w :
  is_cancel p = false →
  ((MapPrimitive bm p w = (true, w)) ∧
     (p ∈ m_history w ∨ IsIgnored bm p = true)) ∨
  ((MapPrimitive bm p w = (false, w)) ∧
     (p ∉ m_history w) ∧ IsIgnored bm p = false ∧ recordable w = false) ∨
  (∃ e, is_record e = true ∧ record_of p e = true ∧
     (p ∉ m_history w) ∧ IsIgnored bm p = false ∧ recordable w = true ∧
     MapPrimitive bm p w
       = (true, m_inputEvent_Set (OnMotion (bm_ptr bm)
                  (set_history (λ s, {[p]} ∪ s) (emit e w))))).
Proof.
  intros Hc. unfold MapPrimitive, recordable. rewrite Hc.
  case_bool_decide as Hh; [by left; split; [|left]|].
  destruct (IsIgnored bm p) eqn:Hig; [by left; split; [|right]|].
  destruct (m_currentButton w ≫= _) as [button|]; [|by right; left].
  destruct (FType (Feature button)); try (by right; left); right; right.
  - eexists (EAddScalar _ _ p). cbn. by rewrite bool_decide_eq_true_2.
  - eexists (EAddAnalogStick _ _ _ p). cbn. by rewrite bool_decide_eq_true_2.
Qed.

(** C1: within a session, classifying a primitive that is already in the
    claimed set reports handled and changes nothing (no record, claimed set
    unchanged, no wake-up: the whole object and its trace stay as they are),
    and that primitive has exactly one record in the session, before and
    after it is delivered again. *)
Theorem MapPrimitive_claimed_is_swallowed bEmulation callbacks evs bm p :
  p ∈ m_history (wizard_after bEmulation callbacks evs) →
  MapPrimitive bm p (wizard_after bEmulation callbacks evs)
    = (true, wizard_after bEmulation callbacks evs) ∧
  session_records p (trace (wizard_after bEmulation callbacks evs)) = 1%nat ∧
  session_records p
    (trace (MapPrimitive bm p (wizard_after bEmulation callbacks evs)).2) = 1%nat.
Proof.
  intros Hp.
  assert (SessionInv (wizard_after bEmulation callbacks evs)) as Hi
    by apply SessionInv_run, SessionInv_constructor.
  destruct (Hi p) as [Hc Hr].
  assert (MapPrimitive bm p (wizard_after bEmulation callbacks evs)
          = (true, wizard_after bEmulation callbacks evs)) as Hsame.
  { unfold MapPrimitive. rewrite (Hc Hp). by rewrite bool_decide_eq_true_2. }
  assert (session_records p (trace (wizard_after bEmulation callbacks evs)) = 1%nat)
    as Hone by (rewrite Hr; by rewrite bool_decide_eq_true_2).
  split; [exact Hsame|]. split; [exact Hone|]. by rewrite Hsame.
Qed.

(** C9: during a run, a primitive for which the button map's [IsIgnored]
    holds is reported handled, no scalar or analog-stick record is produced
    by the call and the claimed set is not modified. *)
Theorem MapPrimitive_ignored_is_filtered bm p w :
  IsRunning w = true → IsIgnored bm p = true →
  (MapPrimitive bm p w).1 = true ∧
  existsb is_record (new_effects w (MapPrimitive bm p w).2) = false ∧
  m_history (MapPrimitive bm p w).2 = m_history w.
Proof.
  intros Hrun Hig. destruct (is_cancel p) eqn:Hc.
  - unfold MapPrimitive, Abort_nowait. rewrite Hc, Hrun. cbn [fst snd].
    split; [done|]. split; [|done].
    by rewrite (new_effects_app w _ [EMotionlessEventSet; EInputEventSet; EStopThread false]).
  - destruct (MapPrimitive_not_cancel bm p w Hc)
      as [[-> _]|[[_ (_ & ? & _)]|(e & _ & _ & _ & ? & _)]]; try congruence.
    cbn [fst snd]. by rewrite (new_effects_app w w []).
Qed.


(** C4, amended: for every call of the classifier on a primitive other than
    the cancel input, the claimed set gains the primitive, the motion
    tracker is signalled and the sequencer is woken exactly when the call
    added a scalar or analog-stick record; without a current feature, or
    with a feature of another type, the object is left as it was. *)
Theorem MapPrimitive_commits_only_on_record bm p w :
  PType p ≠ BUTTON ∨ Index p ≠ ESC_KEY_CODE →
  commits_only_on_record bm p w.
Proof.
  intros Hc%is_cancel_false. unfold commits_only_on_record.
  destruct (MapPrimitive_not_cancel bm p w Hc)
    as [[-> Hw]|[[-> (Hh & Hig & Hr)]|(e & He & _ & Hh & Hig & Hr & ->)]];
    cbn [fst snd].
  - rewrite (new_effects_app w w []) by done. cbn [existsb].
    split_and!; try done; apply bool_decide_eq_false_2; set_solver.
  - rewrite (new_effects_app w w []) by done. cbn [existsb].
    split_and!; try done; apply bool_decide_eq_false_2; set_solver.
  - rewrite (new_effects_app w _ [EInputEventSet; EOnMotion (bm_ptr bm);
                                   EMotionlessEventReset; e]) by done.
    cbn [existsb is_record]. rewrite He, !orb_true_r.
    split_and!; [| | |congruence]; apply bool_decide_eq_true_2.
    + cbn. set_solver.
    + set_solver.
    + set_solver.
Qed.

(** ** The motion tracker *)





(** ** Hooks and the life of the worker *)

Lemma Abort_nowait_frame w :
  hooks (Abort_nowait w).2 = hooks w ∧
  m_thread (Abort_nowait w).2 = m_thread w ∧
  m_bEmulation (Abort_nowait w).2 = m_bEmulation w ∧
  (m_bStop w = true → m_bStop (Abort_nowait w).2 = true).
Proof. unfold Abort_nowait. by destruct (IsRunning w). Qed.

Lemma OnMotionless_frame b w :
  hooks (OnMotionless b w) = hooks w ∧
  m_thread (OnMotionless b w) = m_thread w ∧
  m_bEmulation (OnMotionless b w) = m_bEmulation w ∧
  m_bStop (OnMotionless b w) = m_bStop w.
Proof. unfold OnMotionless. by case_bool_decide. Qed.

Lemma MapPrimitive_frame bm p w :
  hooks (MapPrimitive bm p w).2 = hooks w ∧
  m_thread (MapPrimitive bm p w).2 = m_thread w ∧
  m_bEmulation (MapPrimitive bm p w).2 = m_bEmulation w ∧
  (m_bStop w = true → m_bStop (MapPrimitive bm p w).2 = true).
Proof.
  destruct (is_cancel p) eqn:Hc.
  - unfold MapPrimitive. rewrite Hc. apply Abort_nowait_frame.
  - destruct (MapPrimitive_not_cancel bm p w Hc)
      as [[-> _]|[[-> _]|(e & _ & _ & _ & _ & _ & ->)]]; done.
Qed.

Lemma finish_loop_frame w :
  hooks (finish_loop w) = hooks w ∧
  m_bEmulation (finish_loop w) = m_bEmulation w ∧
  m_bStop (finish_loop w) = m_bStop w ∧
  m_thread (finish_loop w) = pcSave.
Proof. done. Qed.

Lemma for_loop_frame idxs w :
  hooks (for_loop idxs w) = hooks w ∧
  m_bEmulation (for_loop idxs w) = m_bEmulation w ∧
  m_bStop (for_loop idxs w) = m_bStop w ∧
  installed (m_thread (for_loop idxs w)) = true ∧
  (5 < rank (m_thread (for_loop idxs w)) → False)%nat.
Proof.
  revert w. induction idxs as [|i rest IH]; intros w; cbn [for_loop].
  - cbn. split_and!; try done. lia.
  - cbn -[finish_loop]. destruct (m_buttons w !! i) as [button|];
      [|cbn; split_and!; try done; lia].
    destruct (IsFinished button); [|cbn; split_and!; try done; lia].
    change (m_bStop (reset_button i (set_currentButton (Some i) w)))
      with (m_bStop w).
    destruct (m_bStop w) eqn:Hst; [cbn; split_and!; try done; lia|].
    destruct (IH (reset_button i (set_currentButton (Some i) w)))
      as (-> & -> & -> & -> & ?). done.
Qed.

Lemma prompt_returns_frame i w :
  hooks (prompt_returns i w) = hooks w ∧
  m_bEmulation (prompt_returns i w) = m_bEmulation w ∧
  (m_bStop w = true →
     m_bStop (prompt_returns i w) = true ∧ m_thread (prompt_returns i w) = pcSave) ∧
  installed (m_thread (prompt_returns i w)) = true.
Proof.
  unfold prompt_returns. destruct (m_buttons w !! i) as [button|]; [|done].
  destruct (PromptForInput button (m_inputEvent w)) as [button' ok]. cbv zeta.
  set (w0 := set_inputEvent false _).
  set (w1 := if negb ok then _ else _).
  assert (hooks w1 = hooks w ∧ m_bEmulation w1 = m_bEmulation w ∧
          (m_bStop w = true → m_bStop w1 = true)) as (Hh & He & Hs).
  { subst w1. destruct ok; cbn [negb]; [subst w0; cbn; done|].
    destruct (Abort_nowait_frame w0) as (-> & _ & -> & Hst).
    split_and!; [done..|]. intros Hw. by apply Hst. }
  clearbody w1. clear w0. destruct (m_bStop w1) eqn:Hs1.
  { cbn. rewrite Hh, He, Hs1. done. }
  split_and!; [| |intros Hst; specialize (Hs Hst); congruence|].
  - destruct (IsFinished button'); [|done]. cbn [reset_button emit set_buttons m_bStop].
    rewrite Hs1. by destruct (for_loop_frame (buttons_after i (reset_button i w1))
                                (reset_button i w1)) as (-> & _).
  - destruct (IsFinished button'); [|done]. cbn [reset_button emit set_buttons m_bStop].
    rewrite Hs1. by destruct (for_loop_frame (buttons_after i (reset_button i w1))
                                (reset_button i w1)) as (_ & -> & _).
  - destruct (IsFinished button'); [|done]. cbn [reset_button emit set_buttons m_bStop].
    rewrite Hs1. by destruct (for_loop_frame (buttons_after i (reset_button i w1))
                                (reset_button i w1)) as (_ & _ & _ & -> & _).
Qed.

Lemma save_button_maps_frame w :
  hooks (save_button_maps w) = hooks w ∧
  m_bEmulation (save_button_maps w) = m_bEmulation w ∧
  m_bStop (save_button_maps w) = m_bStop w ∧
  m_thread (save_button_maps w) = m_thread w.
Proof.
  unfold save_button_maps. generalize (m_callbacks w). intros l. revert w.
  induction l as [|d l IH]; intros w; cbn [fold_left]; [done|].
  destruct (IH (emit (ESaveButtonMap d) w)) as (-> & -> & -> & ->). done.
Qed.

Lemma InstallHooks_hooks w :
  hooks w = hooks_off → hooks (InstallHooks w) = hooks_on (m_bEmulation w).
Proof. unfold InstallHooks. intros Hh. destruct w; cbn in *. by destruct m_bEmulation0; subst. Qed.

Lemma RemoveHooks_hooks w :
  hooks w = hooks_on (m_bEmulation w) → hooks (RemoveHooks w) = hooks_off.
Proof. unfold RemoveHooks. intros Hh. destruct w; cbn in *. by destruct m_bEmulation0; subst. Qed.

Lemma Process_step_hooks dt w :
  HooksInv w →
  HooksInv (Process_step dt w) ∧
  m_bEmulation (Process_step dt w) = m_bEmulation w.
Proof.
  unfold HooksInv, Process_step. intros Hi.
  destruct (m_thread w) eqn:Hpc; cbn [installed] in Hi.
  - rewrite Hpc. done.
  - destruct (for_loop_frame (seq 0 (length (m_buttons (InstallHooks w))))
                (InstallHooks w)) as (-> & -> & _ & -> & _).
    split; [|by destruct w, m_bEmulation0]. rewrite (InstallHooks_hooks w Hi).
    by destruct w, m_bEmulation0.
  - destruct (prompt_returns_frame i w) as (-> & -> & _ & ->). done.
  - destruct (save_button_maps_frame w) as (Hh & He & _). cbn. by rewrite Hh, He.
  - unfold check_motion, settle_wait. destruct (negb _); [|done].
    destruct (m_motionlessEvent w); [|done].
    destruct (WaitMSec _ _) as [[] elapsed]; cbn; done.
  - unfold settle_returns, settle_wait.
    destruct (WaitMSec _ _) as [[] elapsed]; cbn; done.
  - split; [|by destruct w, m_bEmulation0]. cbn [m_thread set_thread installed].
    change (hooks (set_thread pcNone (RemoveHooks w))) with (hooks (RemoveHooks w)).
    by apply RemoveHooks_hooks.
Qed.

Lemma Process_step_rank dt w :
  m_bStop w = true →
  m_bStop (Process_step dt w) = true ∧
  (rank (m_thread (Process_step dt w)) ≤ Nat.pred (rank (m_thread w)))%nat.
Proof.
  unfold Process_step. intros Hs. destruct (m_thread w) eqn:Hpc.
  - rewrite Hpc. done.
  - destruct (for_loop_frame (seq 0 (length (m_buttons (InstallHooks w))))
                (InstallHooks w)) as (_ & _ & -> & _ & Hr).
    split; [by destruct w, m_bEmulation0|]. cbn [rank Nat.pred]. lia.
  - destruct (prompt_returns_frame i w) as (_ & _ & Hp & _).
    destruct (Hp Hs) as [-> ->]. cbn. split; [done|lia].
  - destruct (save_button_maps_frame w) as (_ & _ & Hb & _). cbn. rewrite Hb.
    split; [done|lia].
  - unfold check_motion, settle_wait. destruct (negb _); [|cbn; split; [done|lia]].
    destruct (m_motionlessEvent w); [|cbn; split; [done|lia]].
    destruct (WaitMSec _ _) as [[] elapsed]; cbn; split; try done; lia.
  - unfold settle_returns, settle_wait. destruct (WaitMSec _ _) as [[] elapsed]; cbn;
      split; try done; lia.
  - split; [by destruct w, m_bEmulation0|]. cbn. lia.
Qed.

Lemma Process_steps_hooks n dts w :
  HooksInv w →
  HooksInv (Process_steps n dts w) ∧
  m_bEmulation (Process_steps n dts w) = m_bEmulation w.
Proof.
  revert dts w. induction n as [|n IH]; intros dts w Hi; cbn [Process_steps];
    [done|].
  destruct (Process_step_hooks (dts O) w Hi) as [Hi' <-]. by apply IH.
Qed.

Lemma Process_steps_rank n dts w :
  m_bStop w = true →
  m_bStop (Process_steps n dts w) = true ∧
  (rank (m_thread (Process_steps n dts w)) ≤ rank (m_thread w) - n)%nat.
Proof.
  revert dts w. induction n as [|n IH]; intros dts w Hs; cbn [Process_steps].
  - split; [done|lia].
  - destruct (Process_step_rank (dts O) w Hs) as [Hs' Hr].
    destruct (IH (λ k, dts (S k)) _ Hs') as [-> Hr']. split; [done|lia].
Qed.

Lemma rank_0 pc : rank pc = O → pc = pcNone.
Proof. by destruct pc. Qed.

(** With the stop flag raised the worker has returned after six steps. *)
Lemma StopThread_wait_joins dts w :
  m_thread (StopThread_wait dts w) = pcNone ∧
  m_bStop (StopThread_wait dts w) = true.
Proof.
  unfold StopThread_wait.
  destruct (Process_steps_rank 6 dts (emit (EStopThread true) (set_bStop true w)))
    as [Hs Hr]; [done|]. split; [|done]. apply rank_0.
  assert (rank (m_thread (emit (EStopThread true) (set_bStop true w))) ≤ 6)%nat
    by (cbn; destruct (m_thread w); cbn; lia). lia.
Qed.

Lemma Abort_hooks bWait dts w :
  HooksInv w →
  HooksInv (Abort bWait dts w).2 ∧
  m_bEmulation (Abort bWait dts w).2 = m_bEmulation w ∧
  (bWait = true → m_thread (Abort bWait dts w).2 = pcNone).
Proof.
  intros Hi. unfold Abort. destruct (IsRunning w) eqn:Hr; cbn [snd].
  - destruct bWait.
    + unfold StopThread_wait at 1 2.
      destruct (Process_steps_hooks 6 dts
                  (emit (EStopThread true)
                     (set_bStop true
                        (m_motionlessEvent_Set (m_inputEvent_Set (StopThread_nowait w))))))
        as [Hi' He]; [done|].
      split; [done|]. split; [by rewrite He|]. intros _.
      apply StopThread_wait_joins.
    + done.
  - split_and!; try done. intros _. unfold IsRunning in Hr.
    apply bool_decide_eq_false in Hr. by destruct (decide (m_thread w = pcNone)).
Qed.

Lemma Run_hooks id buttons dts w :
  HooksInv w →
  HooksInv (Run id buttons dts w) ∧
  m_bEmulation (Run id buttons dts w) = m_bEmulation w.
Proof.
  intros Hi. destruct (Abort_hooks true dts w Hi) as (Hi' & He & Hpc).
  unfold HooksInv, Run. cbn -[Abort]. unfold HooksInv in Hi'.
  rewrite Hpc in Hi' by done. done.
Qed.

Lemma step_hooks e w :
  HooksInv w → HooksInv (step e w) ∧ m_bEmulation (step e w) = m_bEmulation w.
Proof.
  intros Hi. destruct e; cbn [step].
  - by apply Run_hooks.
  - destruct (Abort_hooks bWait dts w Hi) as (? & ? & _). done.
  - unfold OnUnfocus. case_bool_decide; [|done]. unfold HooksInv.
    destruct (Abort_nowait_frame w) as (-> & -> & -> & _). done.
  - by apply Process_step_hooks.
  - case_bool_decide; [|done]. unfold HooksInv.
    destruct (MapPrimitive_frame bm p w) as (-> & -> & -> & _). done.
  - case_bool_decide; [|done]. unfold OnEventFrame. destruct (_ && _); [|done].
    unfold HooksInv. destruct (OnMotionless_frame bm w) as (-> & -> & -> & _). done.
  - case_bool_decide; [|done]. unfold OnKeyPress, HooksInv.
    destruct (Abort_nowait_frame w) as (-> & -> & -> & _). done.
  - case_bool_decide; [|done]. unfold OnButtonPress, HooksInv.
    destruct (Abort_nowait_frame w) as (-> & -> & -> & _). done.
  - case_bool_decide as Ho; [|done]. unfold Notify. destruct msg; [|done].
    unfold HooksInv in *. cbn. rewrite Hi in Ho |- *.
    destruct (installed (m_thread w)); [|done]. by destruct (m_bEmulation w).
Qed.

Lemma run_hooks evs w :
  HooksInv w → HooksInv (run evs w) ∧ m_bEmulation (run evs w) = m_bEmulation w.
Proof.
  revert w. induction evs as [|e evs IH]; intros w Hi; [done|].
  destruct (step_hooks e w Hi) as [Hi' <-]. by apply IH.
Qed.

Lemma wizard_after_hooks bEmulation callbacks evs :
  HooksInv (wizard_after (B:=B) bEmulation callbacks evs) ∧
  m_bEmulation (wizard_after (B:=B) bEmulation callbacks evs) = bEmulation.
Proof. by apply run_hooks. Qed.

Lemma Abort_wait_after bEmulation callbacks evs dts :
  m_thread (Abort true dts (wizard_after (B:=B) bEmulation callbacks evs)).2 = pcNone ∧
  hooks (Abort true dts (wizard_after (B:=B) bEmulation callbacks evs)).2 = hooks_off.
Proof.
  destruct (wizard_after_hooks bEmulation callbacks evs) as [Hi He].
  destruct (Abort_hooks true dts _ Hi) as (Hi' & _ & Hpc).
  split; [by apply Hpc|]. unfold HooksInv in Hi'. by rewrite Hpc in Hi'.
Qed.


(** C8: [Run] on a wizard in any reachable state first aborts the old run
    and waits for its worker (which is gone, with no hook left, before
    anything is reset), then resets the session state (controller id,
    feature list, claimed set, current feature and direction, motion set,
    both wait signals), and only then creates the worker, which has not
    entered [Process] when [Run] returns. *)
Theorem Run_aborts_resets_then_launches bEmulation callbacks evs id buttons dts :
  let w := wizard_after bEmulation callbacks evs in
  let old := (Abort true dts w).2 in
  let w' := Run id buttons dts w in
  m_thread old = pcNone ∧ hooks old = hooks_off ∧
  trace w' = [ECreate; EInitializeState; EMotionlessEventReset; EInputEventReset]
               ++ trace old ∧
  m_strControllerId w' = id ∧ m_buttons w' = buttons ∧ m_history w' = ∅ ∧
  m_currentButton w' = None ∧ m_currentDirection w' = UNKNOWN ∧
  m_bInMotion w' = ∅ ∧ m_inputEvent w' = false ∧ m_motionlessEvent w' = false ∧
  m_bStop w' = false ∧ m_thread w' = pcStart ∧ hooks w' = hooks_off.
Proof.
  intros w old w'.
  destruct (Abort_wait_after bEmulation callbacks evs dts) as [Hpc Hh].
  split_and!; try done.
Qed.

(** ** The settle signal on every path *)









Lemma save_button_maps_motion w :
  m_motionlessEvent (save_button_maps w) = m_motionlessEvent w ∧
  m_bInMotion (save_button_maps w) = m_bInMotion w.
Proof.
  unfold save_button_maps. generalize (m_callbacks w). intros l. revert w.
  induction l as [|d l IH]; intros w; cbn [fold_left]; [done|].
  destruct (IH (emit (ESaveButtonMap d) w)) as [-> ->]. done.
Qed.





(** ** The sequencer *)

(** C2, amended: when [PromptForInput] returns false the sequencer calls
    [Abort(false)], which stops the whole run: the stop flag is raised and
    both signals are set, the loop reaches the stop check, resets the
    current feature and leaves both loops, the session is cleared, no other
    feature is prompted or touched, and the worker then runs to its end. *)
Theorem failed_prompt_aborts_the_run i button dt dts w :
  m_thread w = pcPrompt i → m_buttons w !! i = Some button →
  (PromptForInput button (m_inputEvent w)).2 = false →
  m_bStop (Process_step dt w) = true ∧
  m_inputEvent (Process_step dt w) = true ∧
  m_motionlessEvent (Process_step dt w) = true ∧
  m_thread (Process_step dt w) = pcSave ∧
  m_currentButton (Process_step dt w) = None ∧
  new_effects w (Process_step dt w)
    = [EInitializeState; EButtonReset i; EMotionlessEventSet; EInputEventSet;
       EStopThread false] ∧
  (∀ j, j ≠ i → m_buttons (Process_step dt w) !! j = m_buttons w !! j) ∧
  m_thread (Process_steps 4 dts (Process_step dt w)) = pcNone.
Proof.
  intros Hpc Hb Hfail.
  assert (Process_step dt w
          = finish_loop (reset_button i (m_motionlessEvent_Set (m_inputEvent_Set
              (StopThread_nowait (set_inputEvent false
                 (set_buttons (λ l, <[i:=(PromptForInput button (m_inputEvent w)).1]> l)
                    w))))))) as ->.
  { unfold Process_step. rewrite Hpc. unfold prompt_returns. rewrite Hb.
    destruct (PromptForInput button (m_inputEvent w)) as [button' ok].
    cbn [fst snd] in *. subst ok. cbn [negb]. unfold Abort_nowait, IsRunning.
    cbn [m_thread set_inputEvent set_buttons]. rewrite Hpc.
    rewrite bool_decide_eq_true_2 by done. done. }
  set (w' := finish_loop _).
  assert (m_bStop w' = true) as Hstop by reflexivity.
  assert (m_thread w' = pcSave) as Hpc' by reflexivity.
  split_and!; [exact Hstop|reflexivity|reflexivity|exact Hpc'|reflexivity| | |].
  - by apply new_effects_app.
  - intros j Hj. subst w'. cbn [finish_loop InitializeState reset_button emit
      set_thread set_history set_currentDirection set_currentButton set_buttons
      m_motionlessEvent_Set m_inputEvent_Set StopThread_nowait set_bStop
      set_motionlessEvent set_inputEvent m_buttons].
    by rewrite list_lookup_alter_ne, list_lookup_insert_ne.
  - clearbody w'. apply rank_0.
    destruct (Process_steps_rank 4 dts w' Hstop) as [_ Hr].
    rewrite Hpc' in Hr. cbn [rank] in Hr. lia.
Qed.

Lemma finish_loop_idle w :
  session_idle (finish_loop w) ∧ head (trace (finish_loop w)) = Some EInitializeState.
Proof. done. Qed.

Lemma for_loop_idle idxs w :
  m_thread (for_loop idxs w) = pcSave →
  session_idle (for_loop idxs w) ∧
  head (trace (for_loop idxs w)) = Some EInitializeState.
Proof.
  revert w. induction idxs as [|i rest IH]; intros w; cbn [for_loop];
    [intros _; apply finish_loop_idle|].
  cbn -[finish_loop]. destruct (m_buttons w !! i) as [button|];
    [|intros _; apply finish_loop_idle].
  destruct (IsFinished button); [|discriminate].
  change (m_bStop (reset_button i (set_currentButton (Some i) w))) with (m_bStop w).
  destruct (m_bStop w); [intros _; apply finish_loop_idle|apply IH].
Qed.

Lemma prompt_returns_idle i w :
  m_thread (prompt_returns i w) = pcSave →
  session_idle (prompt_returns i w) ∧
  head (trace (prompt_returns i w)) = Some EInitializeState.
Proof.
  unfold prompt_returns. destruct (m_buttons w !! i) as [button|];
    [|intros _; apply finish_loop_idle].
  destruct (PromptForInput button (m_inputEvent w)) as [button' ok]. cbv zeta.
  set (w1 := if negb ok then _ else _). clearbody w1.
  destruct (m_bStop w1) eqn:Hs1; [intros _; apply finish_loop_idle|].
  destruct (IsFinished button'); [|discriminate].
  change (m_bStop (reset_button i w1)) with (m_bStop w1). rewrite Hs1.
  apply for_loop_idle.
Qed.

Lemma save_button_maps_trace w :
  trace (save_button_maps w) = rev (map ESaveButtonMap (m_callbacks w)) ++ trace w ∧
  m_currentButton (save_button_maps w) = m_currentButton w ∧
  m_currentDirection (save_button_maps w) = m_currentDirection w ∧
  m_history (save_button_maps w) = m_history w.
Proof.
  unfold save_button_maps. generalize (m_callbacks w). intros l. revert w.
  induction l as [|d l IH]; intros w; cbn [fold_left]; [done|].
  destruct (IH (emit (ESaveButtonMap d) w)) as (-> & -> & -> & ->).
  split; [|done]. cbn. by rewrite <- app_assoc.
Qed.

(** A step that leaves the feature loop clears the session; the next one
    makes the saves. *)
Lemma loop_exit_then_saves dt dt' w :
  m_thread (Process_step dt w) = pcSave →
  session_idle (Process_step dt w) ∧
  head (trace (Process_step dt w)) = Some EInitializeState ∧
  trace (Process_step dt' (Process_step dt w))
    = rev (map ESaveButtonMap (m_callbacks (Process_step dt w)))
        ++ trace (Process_step dt w) ∧
  session_idle (Process_step dt' (Process_step dt w)) ∧
  m_thread (Process_step dt' (Process_step dt w)) = pcCheckMotion.
Proof.
  intros Hpc.
  assert (session_idle (Process_step dt w) ∧
          head (trace (Process_step dt w)) = Some EInitializeState) as [Hidle Hhd].
  { revert Hpc. unfold Process_step at 1 2 3. destruct (m_thread w) eqn:Hw.
    - congruence.
    - apply for_loop_idle.
    - apply prompt_returns_idle.
    - discriminate.
    - unfold check_motion, settle_wait. destruct (negb _); [|done].
      destruct (m_motionlessEvent w); [|done]. by destruct (WaitMSec _ _) as [[] ?].
    - unfold settle_returns, settle_wait. by destruct (WaitMSec _ _) as [[] ?].
    - discriminate. }
  split; [done|]. split; [done|].
  generalize dependent (Process_step dt w). intros w1 Hpc Hidle Hhd.
  unfold Process_step. rewrite Hpc.
  destruct (save_button_maps_trace w1) as (Ht & Hc & Hd & Hh).
  destruct Hidle as (Hc' & Hd' & Hh').
  split_and!; [exact Ht| |reflexivity].
  unfold session_idle. cbn [m_currentButton m_currentDirection m_history set_thread].
  by rewrite Hc, Hd, Hh.
Qed.

(** Past the feature loop the worker needs no stop flag to come to its end. *)
Lemma Process_step_rank_tail dt w :
  (rank (m_thread w) ≤ 4)%nat →
  (rank (m_thread (Process_step dt w)) ≤ Nat.pred (rank (m_thread w)))%nat.
Proof.
  unfold Process_step. intros Hr. destruct (m_thread w) eqn:Hpc; cbn in Hr; try lia.
  - rewrite Hpc. done.
  - cbn. lia.
  - unfold check_motion, settle_wait. destruct (negb _); [|cbn; lia].
    destruct (m_motionlessEvent w); [|cbn; lia].
    destruct (WaitMSec _ _) as [[] elapsed]; cbn; lia.
  - unfold settle_returns, settle_wait.
    destruct (WaitMSec _ _) as [[] elapsed]; cbn; lia.
  - cbn. lia.
Qed.

Lemma Process_steps_rank_tail n dts w :
  (rank (m_thread w) ≤ 4)%nat →
  (rank (m_thread (Process_steps n dts w)) ≤ rank (m_thread w) - n)%nat.
Proof.
  revert dts w. induction n as [|n IH]; intros dts w Hr; cbn [Process_steps];
    [lia|].
  pose proof (Process_step_rank_tail (dts O) w Hr) as Hr1.
  assert (rank (m_thread (Process_step (dts O) w)) ≤ 4)%nat as Hr' by lia.
  pose proof (IH (λ k, dts (S k)) (Process_step (dts O) w) Hr') as Hr2. lia.
Qed.



End Properties.

(** The scenario of the specification: button 3 is recorded for "A", axis 0
    for "Left" upwards, and button 3 delivered again is swallowed. *)
Example scenario_records :
  filter (λ e, is_record e = true) (trace (wizard_after false ["joystick0"] scenario))
    = [EAddAnalogStick "joystick0" "Left" UP axis0;
       EAddScalar "joystick0" "A" button3] ∧
  (MapPrimitive joystick0 button3 (wizard_after false ["joystick0"] scenario)).1
    = true ∧
  m_thread (wizard_after false ["joystick0"] scenario) = pcPrompt 1 ∧
  m_currentDirection (wizard_after false ["joystick0"] scenario) = UP.
Proof. vm_compute. done. Qed.

(** C4 as stated fails on the cancel input: while the worker waits for the
    first feature, the escape button wakes the sequencer although nothing
    is recorded. *)
Lemma MapPrimitive_commits_only_on_record_counterexample :
  ¬ (∀ bm p (w : Wizard GUIFeatureButton), commits_only_on_record bm p w).
Proof.
  intros Hall.
  specialize (Hall joystick0 escape
                (wizard_after false ["joystick0"] (take 2 scenario))).
  destruct Hall as (_ & _ & Hwake & _). vm_compute in Hwake. discriminate Hwake.
Qed.

(** Button 3, pressed while the worker waits for "A", is not the cancel input. *)
Lemma MapPrimitive_commits_only_on_record_witness :
  commits_only_on_record joystick0 button3
    (wizard_after false ["joystick0"] (take 2 scenario)).
Proof.
  apply MapPrimitive_commits_only_on_record. right. discriminate.
Defined.

(** A button map that ignores button 3, while the worker waits for "A". *)
Lemma MapPrimitive_ignored_is_filtered_witness :
  let bm := mkButtonMap 0 "joystick0" (λ p, bool_decide (p = button3)) in
  let w := wizard_after false ["joystick0"] (take 2 scenario) in
  (MapPrimitive bm button3 w).1 = true ∧
  existsb is_record (new_effects w (MapPrimitive bm button3 w).2) = false ∧
  m_history (MapPrimitive bm button3 w).2 = m_history w.
Proof.
  intros bm w. apply MapPrimitive_ignored_is_filtered; reflexivity.
Defined.


(** C2 as stated fails: the first prompt of the scenario comes back without
    an input, and the step of the worker raises the stop flag. *)
Lemma failed_prompt_spares_run_counterexample :
  ¬ failed_prompt_spares_run (wizard_after false ["joystick0"] (take 2 scenario)).
Proof.
  intros Hc. specialize (Hc 0%nat (scalar_button "A") 0 eq_refl eq_refl eq_refl eq_refl).
  vm_compute in Hc. discriminate Hc.
Qed.

(** The prompt for "A" comes back without an input. *)
Lemma failed_prompt_aborts_the_run_witness :
  let w := wizard_after false ["joystick0"] (take 2 scenario) in
  m_bStop (Process_step 0 w) = true ∧
  m_inputEvent (Process_step 0 w) = true ∧
  m_motionlessEvent (Process_step 0 w) = true ∧
  m_thread (Process_step 0 w) = pcSave ∧
  m_currentButton (Process_step 0 w) = None ∧
  new_effects w (Process_step 0 w)
    = [EInitializeState; EButtonReset 0; EMotionlessEventSet; EInputEventSet;
       EStopThread false] ∧
  (∀ j, j ≠ 0%nat → m_buttons (Process_step 0 w) !! j = m_buttons w !! j) ∧
  m_thread (Process_steps 4 no_wait (Process_step 0 w)) = pcNone.
Proof.
  intros w.
  apply (failed_prompt_aborts_the_run 0 (scalar_button "A") 0 no_wait w);
    reflexivity.
Defined.

(** C6 as stated fails: the run is cancelled by the mouse before any input
    is recorded, and the button map of the registered device is saved all
    the same. *)
Lemma saves_touched_only_counterexample :
  ¬ (∀ bEmulation callbacks (evs : list (Event GUIFeatureButton)),
       m_thread (wizard_after bEmulation callbacks evs) = pcCheckMotion →
       saves_touched_only (wizard_after bEmulation callbacks evs)).
Proof.
  intros Hc.
  specialize (Hc false ["joystick0"]
                (take 2 scenario ++ [DeliverOnButtonPress; Worker 0; Worker 0])).
  unfold saves_touched_only in Hc.
  set (w := wizard_after _ _ _) in Hc.
  assert (m_thread w = pcCheckMotion) as Hpc by (vm_compute; reflexivity).
  assert (saved_devices (trace w) = ["joystick0"]) as Hs by (vm_compute; reflexivity).
  assert (touched_devices (trace w) = []) as Ht by (vm_compute; reflexivity).
  specialize (Hc Hpc). rewrite Hs, Ht in Hc. set_solver.
Qed.





(** Button 3 is claimed after the scenario. *)
Lemma MapPrimitive_claimed_is_swallowed_witness :
  MapPrimitive joystick0 button3 (wizard_after false ["joystick0"] scenario)
    = (true, wizard_after false ["joystick0"] scenario) ∧
  session_records button3 (trace (wizard_after false ["joystick0"] scenario)) = 1%nat ∧
  session_records button3
    (trace (MapPrimitive joystick0 button3
              (wizard_after false ["joystick0"] scenario)).2) = 1%nat.
Proof.
  apply MapPrimitive_claimed_is_swallowed.
  apply (bool_decide_unpack _). vm_compute. exact I.
Defined.

(** * Further properties of the sequencer and its callers *)

Section Sequencer.

Context {B : Type} `{IFeatureButton B}.

Implicit Types (w : Wizard B) (p : CDriverPrimitive) (bm : IButtonMap).

(** ** The current button follows the worker *)

Lemma PromptInv_ext w w' :
  m_thread w' = m_thread w → m_currentButton w' = m_currentButton w →
  m_currentDirection w' = m_currentDirection w → m_buttons w' = m_buttons w →
  PromptInv w → PromptInv w'.
Proof. unfold PromptInv. intros -> -> -> ->. done. Qed.

Lemma Abort_nowait_session w :
  m_thread (Abort_nowait w).2 = m_thread w ∧
  m_currentButton (Abort_nowait w).2 = m_currentButton w ∧
  m_currentDirection (Abort_nowait w).2 = m_currentDirection w ∧
  m_buttons (Abort_nowait w).2 = m_buttons w.
Proof. unfold Abort_nowait. by destruct (IsRunning w). Qed.

Lemma MapPrimitive_session bm p w :
  m_thread (MapPrimitive bm p w).2 = m_thread w ∧
  m_currentButton (MapPrimitive bm p w).2 = m_currentButton w ∧
  m_currentDirection (MapPrimitive bm p w).2 = m_currentDirection w ∧
  m_buttons (MapPrimitive bm p w).2 = m_buttons w.
Proof.
  destruct (is_cancel p) eqn:Hc.
  - unfold MapPrimitive. rewrite Hc. apply Abort_nowait_session.
  - destruct (MapPrimitive_not_cancel bm p w Hc)
      as [[-> _]|[[-> _]|(e & _ & _ & _ & _ & _ & ->)]]; done.
Qed.

Lemma OnEventFrame_session b bMotion w :
  m_thread (OnEventFrame b bMotion w) = m_thread w ∧
  m_currentButton (OnEventFrame b bMotion w) = m_currentButton w ∧
  m_currentDirection (OnEventFrame b bMotion w) = m_currentDirection w ∧
  m_buttons (OnEventFrame b bMotion w) = m_buttons w.
Proof.
  unfold OnEventFrame, OnMotionless. destruct (_ && _); [|done].
  by case_bool_decide.
Qed.

Lemma PromptInv_finish_loop w : PromptInv (finish_loop w).
Proof. done. Qed.

Lemma PromptInv_for_loop idxs w : PromptInv (for_loop idxs w).
Proof.
  revert w. induction idxs as [|i rest IH]; intros w; cbn [for_loop]; [done|].
  cbn -[finish_loop]. destruct (m_buttons w !! i) as [button|] eqn:Hb; [|done].
  destruct (IsFinished button) eqn:Hf.
  - change (m_bStop (reset_button i (set_currentButton (Some i) w))) with (m_bStop w).
    destruct (m_bStop w); [done|apply IH].
  - unfold PromptInv. cbn. split; [done|]. by exists button.
Qed.

Lemma PromptInv_prompt_returns i w :
  m_thread w = pcPrompt i → PromptInv w → PromptInv (prompt_returns i w).
Proof.
  intros Hpc Hi. unfold PromptInv in Hi. rewrite Hpc in Hi.
  destruct Hi as (Hcur & button & Hb & _ & _).
  unfold prompt_returns. rewrite Hb.
  destruct (PromptForInput button (m_inputEvent w)) as [button' ok]. cbv zeta.
  set (w0 := set_inputEvent false _).
  set (w1 := if negb ok then _ else _).
  assert (m_currentButton w1 = Some i ∧ m_buttons w1 = <[i:=button']> (m_buttons w))
    as [Hcur1 Hb1].
  { subst w1. destruct ok; cbn [negb]; [done|].
    destruct (Abort_nowait_session w0) as (_ & -> & _ & ->). done. }
  clearbody w1. clear w0. destruct (m_bStop w1) eqn:Hs1; [done|].
  destruct (IsFinished button') eqn:Hf.
  - change (m_bStop (reset_button i w1)) with (m_bStop w1). rewrite Hs1.
    apply PromptInv_for_loop.
  - unfold PromptInv. cbn. split; [done|]. exists button'.
    rewrite Hb1. split; [|done]. apply list_lookup_insert_eq.
    by eapply lookup_lt_Some.
Qed.

Lemma save_button_maps_session w :
  m_currentButton (save_button_maps w) = m_currentButton w ∧
  m_thread (save_button_maps w) = m_thread w.
Proof.
  unfold save_button_maps. generalize (m_callbacks w). intros l. revert w.
  induction l as [|d l IH]; intros w; cbn [fold_left]; [done|].
  destruct (IH (emit (ESaveButtonMap d) w)) as [-> ->]. done.
Qed.

Lemma PromptInv_Process_step dt w : PromptInv w → PromptInv (Process_step dt w).
Proof.
  intros Hi. unfold Process_step. destruct (m_thread w) eqn:Hpc; [done|..].
  - apply PromptInv_for_loop.
  - by apply PromptInv_prompt_returns.
  - unfold PromptInv in *. rewrite Hpc in Hi. cbn.
    by destruct (save_button_maps_session w) as [-> _].
  - unfold PromptInv in *. rewrite Hpc in Hi. unfold check_motion, settle_wait.
    destruct (negb _); [|done]. destruct (m_motionlessEvent w); [|done].
    by destruct (WaitMSec _ _) as [[] ?].
  - unfold PromptInv in *. rewrite Hpc in Hi. unfold settle_returns, settle_wait.
    by destruct (WaitMSec _ _) as [[] ?].
  - unfold PromptInv in *. rewrite Hpc in Hi. by destruct w, m_bEmulation0.
Qed.

Lemma PromptInv_Process_steps n dts w :
  PromptInv w → PromptInv (Process_steps n dts w).
Proof.
  revert dts w. induction n as [|n IH]; intros dts w Hi; cbn [Process_steps];
    [done|]. apply IH. by apply PromptInv_Process_step.
Qed.

Lemma PromptInv_Abort bWait dts w : PromptInv w → PromptInv (Abort bWait dts w).2.
Proof.
  intros Hi. unfold Abort. destruct (IsRunning w); cbn [snd]; [|done].
  destruct bWait; [|by apply (PromptInv_ext w)].
  unfold StopThread_wait. apply PromptInv_Process_steps. by apply (PromptInv_ext w).
Qed.

Lemma PromptInv_step e w : PromptInv w → PromptInv (step e w).
Proof.
  intros Hi. destruct e; cbn [step].
  - done.
  - by apply PromptInv_Abort.
  - unfold OnUnfocus. case_bool_decide; [|done].
    destruct (Abort_nowait_session w) as (? & ? & ? & ?). by apply (PromptInv_ext w).
  - by apply PromptInv_Process_step.
  - case_bool_decide; [|done].
    destruct (MapPrimitive_session bm p w) as (? & ? & ? & ?). by apply (PromptInv_ext w).
  - case_bool_decide; [|done].
    destruct (OnEventFrame_session bm bMotion w) as (? & ? & ? & ?).
    by apply (PromptInv_ext w).
  - case_bool_decide; [|done].
    destruct (Abort_nowait_session w) as (? & ? & ? & ?). by apply (PromptInv_ext w).
  - case_bool_decide; [|done].
    destruct (Abort_nowait_session w) as (? & ? & ? & ?). by apply (PromptInv_ext w).
  - case_bool_decide; [|done]. unfold Notify. destruct msg; [|done].
    by apply (PromptInv_ext w).
Qed.

Lemma PromptInv_wizard_after bEmulation callbacks evs :
  PromptInv (wizard_after (B:=B) bEmulation callbacks evs).
Proof.
  unfold wizard_after.
  assert (PromptInv (CGUIConfigurationWizard (B:=B) bEmulation callbacks)) as Hi
    by done.
  revert Hi. generalize (CGUIConfigurationWizard (B:=B) bEmulation callbacks).
  induction evs as [|e evs IH]; intros w Hi; [done|].
  apply IH. by apply PromptInv_step.
Qed.

(** X1: in every reachable state the current button is set exactly while
    the worker is inside a prompt, and then it is the prompted button, which
    is not finished and whose direction is the current direction. *)
Theorem current_button_follows_worker bEmulation callbacks evs :
  m_currentButton (wizard_after bEmulation callbacks evs)
    = (match m_thread (wizard_after bEmulation callbacks evs) with
       | pcPrompt i => Some i
       | _ => None
       end) ∧
  (∀ i, m_thread (wizard_after bEmulation callbacks evs) = pcPrompt i →
        ∃ button,
          m_buttons (wizard_after bEmulation callbacks evs) !! i = Some button ∧
          IsFinished button = false ∧
          m_currentDirection (wizard_after bEmulation callbacks evs)
            = GetDirection button).
Proof.
  pose proof (PromptInv_wizard_after bEmulation callbacks evs) as Hi.
  unfold PromptInv in Hi.
  destruct (m_thread (wizard_after bEmulation callbacks evs)) eqn:Hpc;
    (split; [try done|intros j Hj; try discriminate Hj]).
  - apply Hi.
  - injection Hj as <-. apply Hi.
Qed.

(** X2: in every reachable state, a call of [MapPrimitive] that adds a record
    finds the worker inside the prompt of an unfinished button; the record
    carries the device of the button map, the name of that button's feature
    and, for an analog stick, the direction that button asks for, and it is
    followed by the motion signal and the wake-up. *)
Theorem record_carries_prompted_feature bEmulation callbacks evs bm p :
  existsb is_record
    (new_effects (wizard_after bEmulation callbacks evs)
       (MapPrimitive bm p (wizard_after bEmulation callbacks evs)).2) = true →
  ∃ i button,
    m_thread (wizard_after bEmulation callbacks evs) = pcPrompt i ∧
    m_buttons (wizard_after bEmulation callbacks evs) !! i = Some button ∧
    IsFinished button = false ∧
    (FType (Feature button) = SCALAR ∨ FType (Feature button) = ANALOG_STICK) ∧
    new_effects (wizard_after bEmulation callbacks evs)
      (MapPrimitive bm p (wizard_after bEmulation callbacks evs)).2
      = [EInputEventSet; EOnMotion (bm_ptr bm); EMotionlessEventReset;
         match FType (Feature button) with
         | ANALOG_STICK =>
             EAddAnalogStick (DeviceName bm) (Name (Feature button))
               (GetDirection button) p
         | _ => EAddScalar (DeviceName bm) (Name (Feature button)) p
         end].
Proof.
  pose proof (PromptInv_wizard_after bEmulation callbacks evs) as Hi.
  generalize dependent (wizard_after bEmulation callbacks evs). intros w Hi.
  unfold MapPrimitive. destruct (is_cancel p).
  { unfold Abort_nowait. destruct (IsRunning w); cbn [snd].
    - rewrite (new_effects_app w _
                 [EMotionlessEventSet; EInputEventSet; EStopThread false]) by done.
      discriminate.
    - rewrite (new_effects_app w w []) by done. discriminate. }
  case_bool_decide;
    [cbn [snd]; rewrite (new_effects_app w w []) by done; discriminate|].
  destruct (IsIgnored bm p);
    [cbn [snd]; rewrite (new_effects_app w w []) by done; discriminate|].
  unfold PromptInv in Hi.
  destruct (m_thread w) eqn:Hpc;
    try (rewrite Hi; cbn [mbind option_bind snd];
         rewrite (new_effects_app w w []) by done; discriminate).
  destruct Hi as (Hcur & button & Hb & Hf & Hd). rewrite Hcur. cbn [mbind option_bind].
  rewrite Hb. intros Hrec. exists i, button.
  destruct (FType (Feature button)) eqn:Hty; cbn [snd] in *;
    try (rewrite (new_effects_app w w []) in Hrec by done; discriminate Hrec).
  - split_and!; try done; [by left|]. by apply new_effects_app.
  - split_and!; try done; [by right|]. rewrite <- Hd. by apply new_effects_app.
Qed.

(** X3: in every reachable state, losing the focus on a button other than
    the one the worker is prompting changes nothing; losing it on the
    prompted button requests the stop without waiting (flag raised, both
    signals set, worker still inside the prompt), and the next step of the
    worker leaves the loop. *)
Theorem OnUnfocus_aborts_only_prompted bEmulation callbacks evs j dt :
  if bool_decide (m_thread (wizard_after bEmulation callbacks evs) = pcPrompt j)
  then
    m_bStop (OnUnfocus (Some j) (wizard_after bEmulation callbacks evs)) = true ∧
    m_inputEvent (OnUnfocus (Some j) (wizard_after bEmulation callbacks evs)) = true ∧
    m_motionlessEvent (OnUnfocus (Some j) (wizard_after bEmulation callbacks evs))
      = true ∧
    m_thread (OnUnfocus (Some j) (wizard_after bEmulation callbacks evs)) = pcPrompt j ∧
    m_thread (Process_step dt
                (OnUnfocus (Some j) (wizard_after bEmulation callbacks evs))) = pcSave
  else
    OnUnfocus (Some j) (wizard_after bEmulation callbacks evs)
      = wizard_after bEmulation callbacks evs.
Proof.
  pose proof (PromptInv_wizard_after bEmulation callbacks evs) as Hi.
  generalize dependent (wizard_after bEmulation callbacks evs). intros w Hi.
  unfold PromptInv in Hi. unfold OnUnfocus. case_bool_decide as Hpc.
  - rewrite Hpc in Hi. destruct Hi as (Hcur & _). rewrite Hcur.
    rewrite bool_decide_eq_true_2 by done.
    unfold Abort_nowait, IsRunning. rewrite Hpc.
    rewrite bool_decide_eq_true_2 by done. cbn [snd].
    split_and!; try done.
    set (w' := m_motionlessEvent_Set _).
    assert (m_thread w' = pcPrompt j) as Hx by exact Hpc.
    assert (m_bStop w' = true) as Hs by reflexivity.
    clearbody w'. unfold Process_step. rewrite Hx.
    destruct (prompt_returns_frame j w') as (_ & _ & Hp & _). by apply Hp.
  - destruct (m_thread w) eqn:Hw; try (rewrite Hi; by rewrite bool_decide_eq_false_2).
    destruct Hi as (Hcur & _). rewrite Hcur.
    rewrite bool_decide_eq_false_2; [done|]. intros [= ->]. done.
Qed.

(** X4: an abort that waits leaves no worker behind, so any abort after it
    reports that nothing was running and changes nothing; the first abort
    reports whether the wizard was running. *)
Theorem Abort_after_Abort_is_noop bWait dts dts' w :
  Abort bWait dts' (Abort true dts w).2 = (false, (Abort true dts w).2) ∧
  (Abort true dts w).1 = IsRunning w.
Proof.
  split; [|unfold Abort; by destruct (IsRunning w)].
  assert (IsRunning (Abort true dts w).2 = false) as Hr.
  { unfold Abort at 1. destruct (IsRunning w) eqn:Hrun; cbn [snd]; [|done].
    unfold IsRunning. apply bool_decide_eq_false_2. intros Hne. apply Hne.
    apply StopThread_wait_joins. }
  unfold Abort at 1. by rewrite Hr.
Qed.

(** ** Notifications, motion frames and hooks *)


(** X6: a frame that reports motion changes nothing; motion detected for a
    button map followed by a motionless frame for it leaves the motion set
    without that button map, and the settle signal set exactly if that set
    is empty. *)
Theorem motion_then_motionless_frame b w :
  OnEventFrame b true w = w ∧
  m_bInMotion (OnEventFrame b false (OnMotion b w)) = m_bInMotion w ∖ {[b]} ∧
  m_motionlessEvent (OnEventFrame b false (OnMotion b w))
    = bool_decide (m_bInMotion w ∖ {[b]} = ∅).
Proof.
  split; [unfold OnEventFrame; by rewrite andb_false_r|].
  unfold OnEventFrame.
  rewrite (bool_decide_eq_true_2 (b ∈ m_bInMotion (OnMotion b w)))
    by (cbn; set_solver).
  cbn [andb negb]. unfold OnMotionless.
  assert (m_bInMotion (set_bInMotion (λ s, s ∖ {[b]}) (OnMotion b w))
          = m_bInMotion w ∖ {[b]}) as Hset by (cbn; set_solver).
  rewrite Hset. case_bool_decide as He; cbn; split; try done; set_solver.
Qed.

(** X7: [RemoveHooks] undoes [InstallHooks] whatever was registered before:
    the registrations are as they were and only the trace tells the two
    calls. *)
Theorem RemoveHooks_undoes_InstallHooks w :
  RemoveHooks (InstallHooks w) = emit ERemoveHooks (emit EInstallHooks w).
Proof.
  destruct w as [emu ? ? ? ? ? ? ? ? ? ? ? [] ?]. by destruct emu.
Qed.

(** X8: the cancel input is never claimed and never recorded in a session,
    whatever is delivered. *)
Theorem cancel_input_is_never_claimed bEmulation callbacks evs d :
  (mkPrimitive BUTTON ESC_KEY_CODE d
     ∉ m_history (wizard_after bEmulation callbacks evs)) ∧
  session_records (mkPrimitive BUTTON ESC_KEY_CODE d)
    (trace (wizard_after bEmulation callbacks evs)) = 0%nat.
Proof.
  assert (SessionInv (wizard_after bEmulation callbacks evs)) as Hi
    by apply SessionInv_run, SessionInv_constructor.
  destruct (Hi (mkPrimitive BUTTON ESC_KEY_CODE d)) as [Hc Hr].
  assert (mkPrimitive BUTTON ESC_KEY_CODE d
            ∉ m_history (wizard_after bEmulation callbacks evs)) as Hn.
  { intros Hin. specialize (Hc Hin). discriminate Hc. }
  split; [done|]. by rewrite Hr, bool_decide_eq_false_2.
Qed.

(** ** A stop request against any interleaving *)

Lemma Abort_rank bWait dts w :
  m_bStop w = true →
  m_bStop (Abort bWait dts w).2 = true ∧
  (rank (m_thread (Abort bWait dts w).2) ≤ rank (m_thread w))%nat.
Proof.
  intros Hs. unfold Abort. destruct (IsRunning w); cbn [snd]; [|done].
  destruct bWait; [|done].
  match goal with |- context [StopThread_wait dts ?x] =>
    destruct (StopThread_wait_joins dts x) as [-> ->] end.
  split; [done|cbn; lia].
Qed.

Lemma worker_steps_one (e : Event B) :
  worker_steps [e] = match e with Worker _ => 1%nat | _ => 0%nat end.
Proof. by destruct e. Qed.

Lemma step_rank e w :
  is_CallRun e = false → m_bStop w = true →
  m_bStop (step e w) = true ∧
  (rank (m_thread (step e w))
     ≤ rank (m_thread w) - worker_steps [e])%nat.
Proof.
  intros He Hs. rewrite worker_steps_one.
  destruct e; try discriminate He; cbn [step].
  - destruct (Abort_rank bWait dts w Hs). split; [done|]. cbn. lia.
  - unfold OnUnfocus. case_bool_decide; [|split; [done|cbn; lia]].
    destruct (Abort_nowait_frame w) as (_ & -> & _ & Hst). split; [auto|cbn; lia].
  - destruct (Process_step_rank dt w Hs). split; [done|]. cbn. lia.
  - case_bool_decide; [|split; [done|cbn; lia]].
    destruct (MapPrimitive_frame bm p w) as (_ & -> & _ & Hst). split; [auto|cbn; lia].
  - case_bool_decide; [|split; [done|cbn; lia]].
    unfold OnEventFrame. destruct (_ && _); [|split; [done|cbn; lia]].
    destruct (OnMotionless_frame bm w) as (_ & -> & _ & ->). split; [done|cbn; lia].
  - case_bool_decide; [|split; [done|cbn; lia]]. unfold OnKeyPress.
    destruct (Abort_nowait_frame w) as (_ & -> & _ & Hst). split; [auto|cbn; lia].
  - case_bool_decide; [|split; [done|cbn; lia]]. unfold OnButtonPress.
    destruct (Abort_nowait_frame w) as (_ & -> & _ & Hst). split; [auto|cbn; lia].
  - case_bool_decide; [|split; [done|cbn; lia]]. unfold Notify.
    destruct msg; split; try done; cbn; lia.
Qed.

Lemma run_rank evs w :
  forallb (λ e, negb (is_CallRun e)) evs = true → m_bStop w = true →
  m_bStop (run evs w) = true ∧
  (rank (m_thread (run evs w)) ≤ rank (m_thread w) - worker_steps evs)%nat.
Proof.
  revert w. induction evs as [|e evs IH]; intros w Hev Hs.
  - split; [done|cbn; lia].
  - cbn [forallb] in Hev. apply andb_true_iff in Hev as [He Hev].
    apply negb_true_iff in He.
    destruct (step_rank e w He Hs) as [Hs' Hr].
    destruct (IH (step e w) Hev Hs') as [Hs'' Hr'].
    change (run (e :: evs) w) with (run evs (step e w)). split; [done|].
    assert (worker_steps (e :: evs) = worker_steps [e] + worker_steps evs)%nat as ->.
    { unfold worker_steps. change (e :: evs) with ([e] ++ evs).
      by rewrite stdpp.list_basics.list.filter_app, length_app. }
    lia.
Qed.

(** X9: once the stop flag is raised, and as long as no new run is started,
    the worker has returned after six of its own steps, whatever calls and
    inputs arrive in between. *)
Theorem stop_request_ends_the_worker evs w :
  m_bStop w = true →
  forallb (λ e, negb (is_CallRun e)) evs = true →
  (6 ≤ worker_steps evs)%nat →
  m_thread (run evs w) = pcNone ∧ m_bStop (run evs w) = true.
Proof.
  intros Hs Hev Hn. destruct (run_rank evs w Hev Hs) as [Hs' Hr].
  split; [|done]. apply rank_0.
  assert (rank (m_thread w) ≤ 6)%nat by (destruct (m_thread w); cbn; lia). lia.
Qed.

(** ** The order of the prompts *)

Lemma first_unfinished_spec (l : list B) k :
  match first_unfinished k l with
  | Some i =>
      (k ≤ i)%nat ∧ (∃ b, l !! (i - k)%nat = Some b ∧ IsFinished b = false) ∧
      (∀ j b, (j < i - k)%nat → l !! j = Some b → IsFinished b = true)
  | None => ∀ j b, l !! j = Some b → IsFinished b = true
  end.
Proof.
  revert k. induction l as [|a l IH]; intros k; cbn [first_unfinished]; [done|].
  destruct (IsFinished a) eqn:Ha.
  - specialize (IH (S k)). destruct (first_unfinished (S k) l) as [i|].
    + destruct IH as (Hle & (b & Hb & Hf) & Hbefore). split; [lia|]. split.
      * exists b. split; [|done]. by replace (i - k)%nat with (S (i - S k)) by lia.
      * intros [|j] b' Hj Hb'; [by injection Hb' as <-|].
        apply (Hbefore j); [lia|done].
    + intros [|j] b' Hb'; [by injection Hb' as <-|]. by apply (IH j).
  - split; [lia|]. split; [|intros j b' Hj; lia].
    exists a. by rewrite Nat.sub_diag.
Qed.

Lemma loop_target_spec (l : list B) k :
  match loop_target k l with
  | pcPrompt i =>
      (k ≤ i)%nat ∧ (∃ b, l !! i = Some b ∧ IsFinished b = false) ∧
      (∀ j b, (k ≤ j < i)%nat → l !! j = Some b → IsFinished b = true)
  | pcSave => ∀ j b, (k ≤ j)%nat → l !! j = Some b → IsFinished b = true
  | _ => False
  end.
Proof.
  unfold loop_target. pose proof (first_unfinished_spec (drop k l) k) as Hs.
  destruct (first_unfinished k (drop k l)) as [i|].
  - destruct Hs as (Hle & (b & Hb & Hf) & Hbefore). split; [done|]. split.
    + exists b. rewrite lookup_drop in Hb. by replace (k + (i - k))%nat with i in Hb by lia.
    + intros j b' Hj Hb'. apply (Hbefore (j - k)%nat); [lia|].
      rewrite lookup_drop. by replace (k + (j - k))%nat with j by lia.
  - intros j b Hj Hb. apply (Hs (j - k)%nat).
    rewrite lookup_drop. by replace (k + (j - k))%nat with j by lia.
Qed.

Lemma for_loop_target n k w :
  m_bStop w = false → length (m_buttons w) = (k + n)%nat →
  m_thread (for_loop (seq k n) w) = loop_target k (m_buttons w).
Proof.
  revert k w. induction n as [|n IH]; intros k w Hs Hlen; cbn [seq for_loop].
  - unfold loop_target. rewrite drop_ge by lia. done.
  - cbn -[finish_loop].
    destruct (lookup_lt_is_Some_2 (m_buttons w) k) as [b Hb]; [lia|].
    rewrite Hb. unfold loop_target. rewrite (drop_S _ _ _ Hb). cbn [first_unfinished].
    destruct (IsFinished b); [|done].
    change (m_bStop (reset_button k (set_currentButton (Some k) w))) with (m_bStop w).
    rewrite Hs. rewrite IH; [|done|cbn; rewrite length_alter; lia].
    unfold loop_target. cbn. by rewrite drop_alter_lt by lia.
Qed.

(** X10: when the worker enters [Process] with no stop requested, its first
    step ends inside the prompt of the first button that is not finished
    (every button before it is finished), or past the loop when every
    button is finished. *)
Theorem Process_prompts_first_unfinished dt w :
  m_thread w = pcStart → m_bStop w = false →
  match m_thread (Process_step dt w) with
  | pcPrompt i =>
      (∃ b, m_buttons w !! i = Some b ∧ IsFinished b = false) ∧
      (∀ j b, (j < i)%nat → m_buttons w !! j = Some b → IsFinished b = true)
  | pcSave => ∀ j b, m_buttons w !! j = Some b → IsFinished b = true
  | _ => False
  end.
Proof.
  intros Hpc Hs. unfold Process_step. rewrite Hpc.
  rewrite (for_loop_target _ 0 (InstallHooks w)); [|by destruct w, m_bEmulation0|done].
  assert (m_buttons (InstallHooks w) = m_buttons w) as -> by by destruct w, m_bEmulation0.
  pose proof (loop_target_spec (m_buttons w) 0) as Hspec.
  destruct (loop_target 0 (m_buttons w)); try done.
  - destruct Hspec as (_ & Hb & Hbefore). split; [done|].
    intros j b Hj. apply Hbefore. lia.
  - intros j b. apply Hspec. lia.
Qed.

(** X11: when a prompt comes back with an input and no stop is requested,
    the worker prompts the same button again as long as it is not finished
    (with the direction it now asks for); once it is finished the worker
    goes on to the next button after it that is not finished, or leaves the
    loop when there is none. *)
Theorem Process_prompts_next_unfinished dt i button button' w :
  m_thread w = pcPrompt i → m_bStop w = false →
  m_buttons w !! i = Some button →
  PromptForInput button (m_inputEvent w) = (button', true) →
  if IsFinished button'
  then match m_thread (Process_step dt w) with
       | pcPrompt k =>
           (i < k)%nat ∧ (∃ b, m_buttons w !! k = Some b ∧ IsFinished b = false) ∧
           (∀ j b, (i < j < k)%nat → m_buttons w !! j = Some b → IsFinished b = true)
       | pcSave =>
           ∀ j b, (i < j)%nat → m_buttons w !! j = Some b → IsFinished b = true
       | _ => False
       end
  else m_thread (Process_step dt w) = pcPrompt i ∧
       m_currentDirection (Process_step dt w) = GetDirection button'.
Proof.
  intros Hpc Hs Hb Hp. unfold Process_step. rewrite Hpc.
  unfold prompt_returns. rewrite Hb, Hp. cbn [negb].
  cbn [m_bStop set_inputEvent set_buttons]. rewrite Hs.
  destruct (IsFinished button'); [|done].
  change (m_bStop (reset_button i ?x)) with (m_bStop x).
  cbn [m_bStop set_inputEvent set_buttons]. rewrite Hs.
  set (w2 := reset_button i _).
  assert (m_buttons w2 = alter Reset i (<[i:=button']> (m_buttons w))) as Hb2
    by reflexivity.
  assert (m_bStop w2 = false) as Hs2 by exact Hs.
  assert (i < length (m_buttons w))%nat as Hi by by eapply lookup_lt_Some.
  unfold buttons_after. rewrite (for_loop_target _ (S i) w2 Hs2);
    [|rewrite Hb2, length_alter, length_insert; lia].
  rewrite Hb2. clearbody w2.
  assert (loop_target (S i) (alter Reset i (<[i:=button']> (m_buttons w)))
          = loop_target (S i) (m_buttons w)) as ->.
  { unfold loop_target. rewrite drop_alter_lt by lia. by rewrite drop_insert_lt by lia. }
  pose proof (loop_target_spec (m_buttons w) (S i)) as Hspec.
  destruct (loop_target (S i) (m_buttons w)); exact Hspec.
Qed.

Lemma for_loop_lookup_other idxs i w :
  i ∉ idxs → m_buttons (for_loop idxs w) !! i = m_buttons w !! i.
Proof.
  revert w. induction idxs as [|j rest IH]; intros w Hi; cbn [for_loop]; [done|].
  cbn -[finish_loop]. destruct (m_buttons w !! j) as [b|]; [|done].
  destruct (IsFinished b); [|done].
  change (m_bStop (reset_button j (set_currentButton (Some j) w))) with (m_bStop w).
  assert (m_buttons (reset_button j (set_currentButton (Some j) w)) !! i
          = m_buttons w !! i) as Hne.
  { cbn. apply list_lookup_alter_ne. set_solver. }
  destruct (m_bStop w); [done|]. rewrite IH; [done|set_solver].
Qed.

(** X12: whenever a step of the worker leaves the prompt of a button, for a
    later button or for the end of the loop, stopped or not, that button has
    been reset after its last prompt. *)
Theorem button_is_reset_on_leaving dt i button w :
  m_thread w = pcPrompt i → m_buttons w !! i = Some button →
  m_thread (Process_step dt w) ≠ pcPrompt i →
  m_buttons (Process_step dt w) !! i
    = Some (Reset (PromptForInput button (m_inputEvent w)).1).
Proof.
  intros Hpc Hb. unfold Process_step. rewrite Hpc. unfold prompt_returns. rewrite Hb.
  destruct (PromptForInput button (m_inputEvent w)) as [button' ok]. cbv zeta.
  cbn [fst]. set (w0 := set_inputEvent false _).
  set (w1 := if negb ok then _ else _).
  assert (m_buttons w1 = <[i:=button']> (m_buttons w)) as Hb1.
  { subst w1. destruct ok; cbn [negb]; [done|].
    by destruct (Abort_nowait_session w0) as (_ & _ & _ & ->). }
  assert (i < length (m_buttons w))%nat as Hi by by eapply lookup_lt_Some.
  assert (m_buttons (reset_button i w1) !! i = Some (Reset button')) as Hreset.
  { cbn. rewrite Hb1, list_lookup_alter_eq, list_lookup_insert_eq by done. done. }
  clearbody w1. clear w0. destruct (m_bStop w1) eqn:Hs1; [intros _; exact Hreset|].
  destruct (IsFinished button'); [|intros Hne; by destruct Hne].
  change (m_bStop (reset_button i w1)) with (m_bStop w1). rewrite Hs1. intros _.
  rewrite for_loop_lookup_other; [exact Hreset|].
  unfold buttons_after. rewrite elem_of_seq. lia.
Qed.

Lemma RemoveHooks_hooks_ext w w' :
  hooks w = hooks w' → m_bEmulation w = m_bEmulation w' →
  hooks (RemoveHooks w) = hooks (RemoveHooks w').
Proof.
  destruct w as [emu ? ? ? ? ? ? ? ? ? ? ? hk ?],
    w' as [emu' ? ? ? ? ? ? ? ? ? ? ? hk' ?].
  cbn [hooks m_bEmulation]. intros -> ->. unfold RemoveHooks. by destruct emu'.
Qed.

(** X13: with an empty feature list and nothing in motion, the worker runs
    from [Create] to its end in four steps: hooks installed, session
    cleared, every callback saved, hooks removed; no prompt and no wait are
    made, and the registrations are as before. *)
Theorem Process_without_features dts w :
  m_thread w = pcStart → m_buttons w = [] → m_bInMotion w = ∅ →
  m_thread (Process_steps 4 dts w) = pcNone ∧
  hooks (Process_steps 4 dts w) = hooks w ∧
  trace (Process_steps 4 dts w)
    = ERemoveHooks :: rev (map ESaveButtonMap (m_callbacks w))
        ++ [EInitializeState; EInstallHooks] ++ trace w.
Proof.
  intros Hpc Hb Hm. cbn [Process_steps].
  assert (Process_step (dts 0%nat) w = finish_loop (InstallHooks w)) as ->.
  { unfold Process_step. rewrite Hpc.
    assert (m_buttons (InstallHooks w) = []) as -> by by destruct w, m_bEmulation0.
    done. }
  set (w1 := finish_loop (InstallHooks w)).
  assert (m_thread w1 = pcSave) as Hpc1 by reflexivity.
  assert (m_callbacks w1 = m_callbacks w ∧ m_bInMotion w1 = m_bInMotion w ∧
          m_bEmulation w1 = m_bEmulation w ∧
          trace w1 = [EInitializeState; EInstallHooks] ++ trace w ∧
          hooks (RemoveHooks w1) = hooks w) as (Hc1 & Hm1 & He1 & Ht1 & Hh1)
    by by destruct w as [emu ? ? ? ? ? ? ? ? ? ? ? [] ?], emu.
  clearbody w1.
  assert (Process_step (dts 1%nat) w1 = set_thread pcCheckMotion (save_button_maps w1))
    as -> by (unfold Process_step; by rewrite Hpc1).
  destruct (save_button_maps_trace w1) as (Ht2 & _).
  destruct (save_button_maps_motion w1) as (_ & Hm2).
  destruct (save_button_maps_frame w1) as (Hh2 & He2 & _).
  set (w2 := save_button_maps w1) in *. clearbody w2.
  assert (Process_step (dts 2%nat) (set_thread pcCheckMotion w2)
          = set_thread pcRemove w2) as ->.
  { unfold Process_step, check_motion. cbn [m_thread set_thread m_bInMotion].
    rewrite Hm2, Hm1, Hm. by rewrite bool_decide_eq_true_2. }
  unfold Process_step. cbn [m_thread set_thread]. split; [done|].
  split.
  - rewrite <- Hh1.
    change (hooks (set_thread pcNone (RemoveHooks (set_thread pcRemove w2))))
      with (hooks (RemoveHooks (set_thread pcRemove w2))).
    by apply RemoveHooks_hooks_ext.
  - assert (trace (set_thread pcNone (RemoveHooks (set_thread pcRemove w2)))
            = ERemoveHooks :: trace w2) as -> by by destruct w2, m_bEmulation0.
    by rewrite Ht2, Hc1, Ht1.
Qed.

(** ** The motion set and the records of a run *)

Lemma touched_devices_app es t :
  ECreate ∉ es → touched_devices t ≠ [] → touched_devices (es ++ t) ≠ [].
Proof.
  induction es as [|e es IH]; intros Hes Ht; [done|].
  assert (ECreate ∉ es) as Hes' by set_solver.
  destruct e; cbn; try (by apply IH); try done. set_solver.
Qed.

Lemma calm_MotionInv w w' : calm w w' → MotionInv w → MotionInv w'.
Proof.
  intros [Hsub (es & Ht & Hes)] Hi Hne. rewrite Ht.
  apply touched_devices_app; [done|]. apply Hi. set_solver.
Qed.

Lemma calm_refl w : calm w w.
Proof. split; [done|]. exists []. split; [done|set_solver]. Qed.

Lemma calm_trans w1 w2 w3 : calm w1 w2 → calm w2 w3 → calm w1 w3.
Proof.
  intros [Hs1 (es1 & Ht1 & He1)] [Hs2 (es2 & Ht2 & He2)]. split; [set_solver|].
  exists (es2 ++ es1). split; [by rewrite Ht2, Ht1, app_assoc|set_solver].
Qed.

Lemma calm_intro w w' es :
  m_bInMotion w' ⊆ m_bInMotion w → trace w' = es ++ trace w → ECreate ∉ es →
  calm w w'.
Proof. intros ? ? ?. split; [done|]. by exists es. Qed.

Lemma calm_Abort_nowait w : calm w (Abort_nowait w).2.
Proof.
  unfold Abort_nowait. destruct (IsRunning w); [|apply calm_refl].
  apply (calm_intro _ _ [EMotionlessEventSet; EInputEventSet; EStopThread false]);
    [done|done|set_solver].
Qed.

Lemma calm_OnEventFrame b bMotion w : calm w (OnEventFrame b bMotion w).
Proof.
  unfold OnEventFrame. destruct (_ && _); [|apply calm_refl].
  unfold OnMotionless. case_bool_decide.
  - apply (calm_intro _ _ [EMotionlessEventSet]); [cbn; set_solver|done|set_solver].
  - apply (calm_intro _ _ []); [cbn; set_solver|done|set_solver].
Qed.

Lemma calm_for_loop idxs w : calm w (for_loop idxs w).
Proof.
  revert w. induction idxs as [|i rest IH]; intros w; cbn [for_loop].
  - apply (calm_intro _ _ [EInitializeState]); [done|done|set_solver].
  - cbn -[finish_loop]. destruct (m_buttons w !! i) as [button|];
      [|apply (calm_intro _ _ [EInitializeState]); [done|done|set_solver]].
    destruct (IsFinished button);
      [|apply (calm_intro _ _ [EPromptForInput i]); [done|done|set_solver]].
    change (m_bStop (reset_button i (set_currentButton (Some i) w))) with (m_bStop w).
    destruct (m_bStop w).
    + apply (calm_intro _ _ [EInitializeState; EButtonReset i]);
        [done|done|set_solver].
    + eapply calm_trans; [|apply IH].
      apply (calm_intro _ _ [EButtonReset i]); [done|done|set_solver].
Qed.

Lemma calm_prompt_returns i w : calm w (prompt_returns i w).
Proof.
  unfold prompt_returns. destruct (m_buttons w !! i) as [button|];
    [|apply (calm_intro _ _ [EInitializeState]); [done|done|set_solver]].
  destruct (PromptForInput button (m_inputEvent w)) as [button' ok]. cbv zeta.
  set (w0 := set_inputEvent false _).
  set (w1 := if negb ok then _ else _).
  assert (calm w w1) as Hc1.
  { subst w1. destruct ok; cbn [negb].
    - apply (calm_intro _ _ []); [done|done|set_solver].
    - eapply calm_trans; [|apply calm_Abort_nowait].
      apply (calm_intro _ _ []); [done|done|set_solver]. }
  clearbody w1. clear w0. eapply calm_trans; [exact Hc1|].
  destruct (m_bStop w1) eqn:Hs1.
  { apply (calm_intro _ _ [EInitializeState; EButtonReset i]); [done|done|set_solver]. }
  destruct (IsFinished button');
    [|apply (calm_intro _ _ [EPromptForInput i]); [done|done|set_solver]].
  change (m_bStop (reset_button i w1)) with (m_bStop w1). rewrite Hs1.
  eapply calm_trans; [|apply calm_for_loop].
  apply (calm_intro _ _ [EButtonReset i]); [done|done|set_solver].
Qed.

Lemma calm_Process_step dt w : calm w (Process_step dt w).
Proof.
  unfold Process_step. destruct (m_thread w); [apply calm_refl|..].
  - eapply calm_trans; [|apply calm_for_loop].
    apply (calm_intro _ _ [EInstallHooks]); [|by destruct w, m_bEmulation0|set_solver].
    by destruct w, m_bEmulation0.
  - apply calm_prompt_returns.
  - destruct (save_button_maps_trace w) as (Ht & _).
    destruct (save_button_maps_motion w) as (_ & Hm).
    apply (calm_intro _ _ (rev (map ESaveButtonMap (m_callbacks w))));
      [cbn; by rewrite Hm|done|].
    intros Hin%list_elem_of_In. apply List.in_rev in Hin.
    apply List.in_map_iff in Hin as (? & ? & _). discriminate.
  - unfold check_motion, settle_wait.
    destruct (negb _); [|apply (calm_intro _ _ []); done || set_solver].
    destruct (m_motionlessEvent w); [|apply (calm_intro _ _ []); done || set_solver].
    destruct (WaitMSec _ _) as [[] elapsed];
      apply (calm_intro _ _ [EWaitMSec POST_MAPPING_WAIT_TIME_MS elapsed]);
      done || set_solver.
  - unfold settle_returns, settle_wait. destruct (WaitMSec _ _) as [[] elapsed];
      apply (calm_intro _ _ [EWaitMSec POST_MAPPING_WAIT_TIME_MS elapsed]);
      done || set_solver.
  - apply (calm_intro _ _ [ERemoveHooks]); [|by destruct w, m_bEmulation0|set_solver].
    by destruct w, m_bEmulation0.
Qed.

Lemma calm_Process_steps n dts w : calm w (Process_steps n dts w).
Proof.
  revert dts w. induction n as [|n IH]; intros dts w; cbn [Process_steps];
    [apply calm_refl|].
  eapply calm_trans; [apply calm_Process_step|apply IH].
Qed.

Lemma calm_Abort bWait dts w : calm w (Abort bWait dts w).2.
Proof.
  unfold Abort. destruct (IsRunning w); cbn [snd]; [|apply calm_refl].
  destruct bWait.
  - unfold StopThread_wait. eapply calm_trans; [|apply calm_Process_steps].
    apply (calm_intro _ _ [EStopThread true; EMotionlessEventSet; EInputEventSet;
                           EStopThread false]); [done|done|set_solver].
  - apply (calm_intro _ _ [EMotionlessEventSet; EInputEventSet; EStopThread false]);
      [done|done|set_solver].
Qed.

Lemma MotionInv_MapPrimitive bm p w : MotionInv w → MotionInv (MapPrimitive bm p w).2.
Proof.
  intros Hi. destruct (is_cancel p) eqn:Hc.
  - unfold MapPrimitive. rewrite Hc.
    apply (calm_MotionInv w); [apply calm_Abort_nowait|done].
  - destruct (MapPrimitive_not_cancel bm p w Hc)
      as [[-> _]|[[-> _]|(e & He & _ & _ & _ & _ & ->)]]; [done..|].
    intros _. cbn. by destruct e.
Qed.

Lemma MotionInv_step e w : MotionInv w → MotionInv (step e w).
Proof.
  intros Hi. destruct e; cbn [step].
  - intros Hne. by destruct Hne.
  - apply (calm_MotionInv w); [apply calm_Abort|done].
  - unfold OnUnfocus. case_bool_decide; [|done].
    apply (calm_MotionInv w); [apply calm_Abort_nowait|done].
  - apply (calm_MotionInv w); [apply calm_Process_step|done].
  - case_bool_decide; [|done]. by apply MotionInv_MapPrimitive.
  - case_bool_decide; [|done]. apply (calm_MotionInv w); [apply calm_OnEventFrame|done].
  - case_bool_decide; [|done]. apply (calm_MotionInv w); [apply calm_Abort_nowait|done].
  - case_bool_decide; [|done]. apply (calm_MotionInv w); [apply calm_Abort_nowait|done].
  - case_bool_decide; [|done]. unfold Notify. destruct msg; [|done].
    intros Hne. by apply Hi.
Qed.

Lemma MotionInv_wizard_after bEmulation callbacks evs :
  MotionInv (wizard_after (B:=B) bEmulation callbacks evs).
Proof.
  unfold wizard_after.
  assert (MotionInv (CGUIConfigurationWizard (B:=B) bEmulation callbacks)) as Hi
    by (intros Hne; by destruct Hne).
  revert Hi. generalize (CGUIConfigurationWizard (B:=B) bEmulation callbacks).
  induction evs as [|e evs IH]; intros w Hi; [done|].
  apply IH. by apply MotionInv_step.
Qed.


(** X15: the stop flag is not looked at before the first prompt.  A worker
    created with the flag already raised still enters the prompt of the
    first button when that button is not finished; when it is finished, the
    button is reset and the loop is left without looking at the others. *)
Theorem Process_entered_with_stop_flag dt button w :
  m_thread w = pcStart → m_bStop w = true →
  m_buttons w !! 0%nat = Some button →
  if IsFinished button
  then m_thread (Process_step dt w) = pcSave ∧
       m_buttons (Process_step dt w) = alter Reset 0%nat (m_buttons w)
  else m_thread (Process_step dt w) = pcPrompt 0 ∧
       m_currentButton (Process_step dt w) = Some 0%nat ∧
       m_buttons (Process_step dt w) = m_buttons w.
Proof.
  intros Hpc Hs Hb. unfold Process_step. rewrite Hpc.
  assert (m_buttons (InstallHooks w) = m_buttons w ∧ m_bStop (InstallHooks w) = true)
    as [Hb' Hs'] by (split; [|rewrite <- Hs]; by destruct w, m_bEmulation0).
  set (w' := InstallHooks w) in *. clearbody w'.
  destruct (m_buttons w') as [|b l] eqn:Hl; [by rewrite <- Hb' in Hb|].
  rewrite <- Hb' in Hb |- *. injection Hb as ->.
  cbn [length seq for_loop]. cbn -[finish_loop]. rewrite Hl. cbn [lookup list_lookup].
  destruct (IsFinished button); [|cbn; by rewrite Hl].
  rewrite Hs'. cbn. by rewrite Hl.
Qed.

End Sequencer.

(** Button 3 is recorded for "A" while the worker prompts for it. *)
Lemma record_carries_prompted_feature_witness :
  ∃ i button,
    m_thread (wizard_after false ["joystick0"] (take 2 scenario)) = pcPrompt i ∧
    m_buttons (wizard_after false ["joystick0"] (take 2 scenario)) !! i = Some button ∧
    IsFinished button = false ∧
    (FType (Feature button) = SCALAR ∨ FType (Feature button) = ANALOG_STICK) ∧
    new_effects (wizard_after false ["joystick0"] (take 2 scenario))
      (MapPrimitive joystick0 button3
         (wizard_after false ["joystick0"] (take 2 scenario))).2
      = [EInputEventSet; EOnMotion (bm_ptr joystick0); EMotionlessEventReset;
         match FType (Feature button) with
         | ANALOG_STICK =>
             EAddAnalogStick (DeviceName joystick0) (Name (Feature button))
               (GetDirection button) button3
         | _ => EAddScalar (DeviceName joystick0) (Name (Feature button)) button3
         end].
Proof.
  apply record_carries_prompted_feature. vm_compute. reflexivity.
Defined.


(** The scenario is aborted without waiting; inputs and a mouse click arrive
    between the steps of the worker. *)
Lemma stop_request_ends_the_worker_witness :
  let w := wizard_after false ["joystick0"] (scenario ++ [CallAbort false no_wait]) in
  let evs := [Worker 0; DeliverMapPrimitive joystick0 axis0; Worker 0; Worker 0;
              DeliverOnButtonPress; Worker 5000; Worker 0; Worker 0] in
  m_thread (run evs w) = pcNone ∧ m_bStop (run evs w) = true.
Proof.
  intros w evs. apply stop_request_ends_the_worker.
  - vm_compute. reflexivity.
  - vm_compute. reflexivity.
  - vm_compute. lia.
Defined.

(** The scenario right after [Run]. *)
Lemma Process_prompts_first_unfinished_witness :
  let w := wizard_after false ["joystick0"] (take 1 scenario) in
  match m_thread (Process_step 0 w) with
  | pcPrompt i =>
      (∃ b, m_buttons w !! i = Some b ∧ IsFinished b = false) ∧
      (∀ j b, (j < i)%nat → m_buttons w !! j = Some b → IsFinished b = true)
  | pcSave => ∀ j b, m_buttons w !! j = Some b → IsFinished b = true
  | _ => False
  end.
Proof.
  intros w. apply Process_prompts_first_unfinished; vm_compute; reflexivity.
Defined.

(** Button 3 has been recorded for "A" and the prompt comes back. *)
Lemma Process_prompts_next_unfinished_witness :
  let w := wizard_after false ["joystick0"] (take 3 scenario) in
  if IsFinished (mkButton (mkFeature "A" SCALAR) [UNKNOWN] 1)
  then match m_thread (Process_step 0 w) with
       | pcPrompt k =>
           (0 < k)%nat ∧ (∃ b, m_buttons w !! k = Some b ∧ IsFinished b = false) ∧
           (∀ j b, (0 < j < k)%nat → m_buttons w !! j = Some b → IsFinished b = true)
       | pcSave =>
           ∀ j b, (0 < j)%nat → m_buttons w !! j = Some b → IsFinished b = true
       | _ => False
       end
  else m_thread (Process_step 0 w) = pcPrompt 0 ∧
       m_currentDirection (Process_step 0 w)
         = GetDirection (mkButton (mkFeature "A" SCALAR) [UNKNOWN] 1).
Proof.
  intros w.
  apply (Process_prompts_next_unfinished 0 0%nat (scalar_button "A")
           (mkButton (mkFeature "A" SCALAR) [UNKNOWN] 1) w);
    vm_compute; reflexivity.
Defined.

(** The worker leaves the prompt for "A" for the one for "Left". *)
Lemma button_is_reset_on_leaving_witness :
  let w := wizard_after false ["joystick0"] (take 3 scenario) in
  m_buttons (Process_step 0 w) !! 0%nat
    = Some (Reset (PromptForInput (scalar_button "A") (m_inputEvent w)).1).
Proof.
  intros w. apply (button_is_reset_on_leaving 0 0%nat (scalar_button "A") w).
  - vm_compute. reflexivity.
  - vm_compute. reflexivity.
  - vm_compute. discriminate.
Defined.

(** A run over no feature at all. *)
Lemma Process_without_features_witness :
  let w := wizard_after (B:=GUIFeatureButton) false ["joystick0"]
             [CallRun "game.controller.default" [] no_wait] in
  m_thread (Process_steps 4 no_wait w) = pcNone ∧
  hooks (Process_steps 4 no_wait w) = hooks w ∧
  trace (Process_steps 4 no_wait w)
    = ERemoveHooks :: rev (map ESaveButtonMap (m_callbacks w))
        ++ [EInitializeState; EInstallHooks] ++ trace w.
Proof.
  intros w. apply (Process_without_features no_wait w); vm_compute; reflexivity.
Defined.


(** The run is aborted before the worker has entered [Process]. *)
Lemma Process_entered_with_stop_flag_witness :
  let w := wizard_after false ["joystick0"]
             (take 1 scenario ++ [CallAbort false no_wait]) in
  if IsFinished (scalar_button "A")
  then m_thread (Process_step 0 w) = pcSave ∧
       m_buttons (Process_step 0 w) = alter Reset 0%nat (m_buttons w)
  else m_thread (Process_step 0 w) = pcPrompt 0 ∧
       m_currentButton (Process_step 0 w) = Some 0%nat ∧
       m_buttons (Process_step 0 w) = m_buttons w.
Proof.
  intros w. apply (Process_entered_with_stop_flag 0 (scalar_button "A") w);
    vm_compute; reflexivity.
Defined.

(** * The trace of a run, the settle wait and the saves *)

Section Runs.

Context {B : Type} `{IFeatureButton B}.

Implicit Types (w : Wizard B) (p : CDriverPrimitive) (bm : IButtonMap).

Lemma hook_depth_plain es t :
  forallb plain_effect es = true → hook_depth (es ++ t) = hook_depth t.
Proof.
  induction es as [|e es IH]; [done|]. cbn [forallb].
  intros [He Hes]%andb_true_iff. destruct e; try discriminate He; cbn; by apply IH.
Qed.

Lemma saved_devices_plain es t :
  forallb plain_effect es = true → saved_devices (es ++ t) = saved_devices t.
Proof.
  induction es as [|e es IH]; [done|]. cbn [forallb].
  intros [He Hes]%andb_true_iff. destruct e; try discriminate He; cbn; by apply IH.
Qed.

Lemma hook_depth_saves l t :
  hook_depth (rev (map ESaveButtonMap l) ++ t) = hook_depth t.
Proof.
  revert t. induction l as [|d l IH]; intros t; [done|].
  cbn [map rev]. rewrite <- app_assoc. rewrite IH. done.
Qed.

Lemma saved_devices_saves l t :
  saved_devices (rev (map ESaveButtonMap l) ++ t) = rev l ++ saved_devices t.
Proof.
  revert t. induction l as [|d l IH]; intros t; [done|].
  cbn [map rev]. rewrite <- !app_assoc. rewrite IH. done.
Qed.

Lemma plain_refl w : plain w w.
Proof. split; [done|]. by exists []. Qed.

Lemma plain_trans w1 w2 w3 : plain w1 w2 → plain w2 w3 → plain w1 w3.
Proof.
  intros [Hc1 (es1 & Ht1 & He1)] [Hc2 (es2 & Ht2 & He2)]. split; [congruence|].
  exists (es2 ++ es1). split; [by rewrite Ht2, Ht1, app_assoc|].
  rewrite forallb_app. by rewrite He1, He2.
Qed.

Lemma plain_intro w w' es :
  m_callbacks w' = m_callbacks w → trace w' = es ++ trace w →
  forallb plain_effect es = true → plain w w'.
Proof. intros ? ? ?. split; [done|]. by exists es. Qed.

Lemma installed_phase pc : installed pc = bool_decide (2 ≤ phase pc)%nat.
Proof. by destruct pc. Qed.

Lemma plain_TraceInv w w' :
  plain w w' → phase (m_thread w') = phase (m_thread w) → TraceInv w → TraceInv w'.
Proof.
  intros [Hc (es & Ht & Hes)] Hph [Hd Hs]. unfold TraceInv.
  rewrite Ht, hook_depth_plain, saved_devices_plain, Hc, Hph by done.
  rewrite (installed_phase (m_thread w')), Hph, <- installed_phase. done.
Qed.

Lemma plain_Abort_nowait w : plain w (Abort_nowait w).2.
Proof.
  unfold Abort_nowait. destruct (IsRunning w); [|apply plain_refl].
  by apply (plain_intro _ _ [EMotionlessEventSet; EInputEventSet; EStopThread false]).
Qed.

Lemma plain_OnEventFrame b bMotion w : plain w (OnEventFrame b bMotion w).
Proof.
  unfold OnEventFrame. destruct (_ && _); [|apply plain_refl].
  unfold OnMotionless. case_bool_decide.
  - by apply (plain_intro _ _ [EMotionlessEventSet]).
  - by apply (plain_intro _ _ []).
Qed.

Lemma plain_MapPrimitive bm p w : plain w (MapPrimitive bm p w).2.
Proof.
  destruct (is_cancel p) eqn:Hc.
  - unfold MapPrimitive. rewrite Hc. apply plain_Abort_nowait.
  - destruct (MapPrimitive_not_cancel bm p w Hc)
      as [[-> _]|[[-> _]|(e & He & _ & _ & _ & _ & ->)]]; [apply plain_refl..|].
    apply (plain_intro _ _ [EInputEventSet; EOnMotion (bm_ptr bm);
                            EMotionlessEventReset; e]); [done|done|].
    by destruct e.
Qed.

Lemma plain_for_loop idxs w :
  plain w (for_loop idxs w) ∧ phase (m_thread (for_loop idxs w)) = 2%nat.
Proof.
  revert w. induction idxs as [|i rest IH]; intros w; cbn [for_loop].
  - split; [|done]. by apply (plain_intro _ _ [EInitializeState]).
  - cbn -[finish_loop]. destruct (m_buttons w !! i) as [button|];
      [|split; [|done]; by apply (plain_intro _ _ [EInitializeState])].
    destruct (IsFinished button);
      [|split; [|done]; by apply (plain_intro _ _ [EPromptForInput i])].
    change (m_bStop (reset_button i (set_currentButton (Some i) w))) with (m_bStop w).
    destruct (m_bStop w).
    + split; [|done]. by apply (plain_intro _ _ [EInitializeState; EButtonReset i]).
    + destruct (IH (reset_button i (set_currentButton (Some i) w))) as [Hp Hph].
      split; [|done]. eapply plain_trans; [|exact Hp].
      by apply (plain_intro _ _ [EButtonReset i]).
Qed.

Lemma plain_prompt_returns i w :
  plain w (prompt_returns i w) ∧ phase (m_thread (prompt_returns i w)) = 2%nat.
Proof.
  unfold prompt_returns. destruct (m_buttons w !! i) as [button|];
    [|split; [|done]; by apply (plain_intro _ _ [EInitializeState])].
  destruct (PromptForInput button (m_inputEvent w)) as [button' ok]. cbv zeta.
  set (w0 := set_inputEvent false _).
  set (w1 := if negb ok then _ else _).
  assert (plain w w1) as Hc1.
  { subst w1. destruct ok; cbn [negb].
    - by apply (plain_intro _ _ []).
    - eapply plain_trans; [|apply plain_Abort_nowait]. by apply (plain_intro _ _ []). }
  clearbody w1. clear w0. destruct (m_bStop w1) eqn:Hs1.
  { split; [|done]. eapply plain_trans; [exact Hc1|].
    by apply (plain_intro _ _ [EInitializeState; EButtonReset i]). }
  destruct (IsFinished button').
  - change (m_bStop (reset_button i w1)) with (m_bStop w1). rewrite Hs1.
    destruct (plain_for_loop (buttons_after i (reset_button i w1)) (reset_button i w1))
      as [Hp Hph].
    split; [|done]. eapply plain_trans; [exact Hc1|].
    eapply plain_trans; [|exact Hp]. by apply (plain_intro _ _ [EButtonReset i]).
  - split; [|done]. eapply plain_trans; [exact Hc1|].
    by apply (plain_intro _ _ [EPromptForInput i]).
Qed.

Lemma save_button_maps_callbacks w :
  m_callbacks (save_button_maps w) = m_callbacks w.
Proof.
  unfold save_button_maps. generalize (m_callbacks w) at 1. intros l. revert w.
  induction l as [|d l IH]; intros w; cbn [fold_left]; [done|].
  by rewrite (IH (emit (ESaveButtonMap d) w)).
Qed.

Lemma plain_settle_wait fires w :
  plain w (settle_wait fires w) ∧ m_thread (settle_wait fires w) = pcRemove.
Proof.
  unfold settle_wait. destruct (WaitMSec _ _) as [[] elapsed]; (split; [|done]);
    by apply (plain_intro _ _ [EWaitMSec POST_MAPPING_WAIT_TIME_MS elapsed]).
Qed.

Lemma TraceInv_Process_step dt w :
  TraceInv w →
  TraceInv (Process_step dt w) ∧ m_callbacks (Process_step dt w) = m_callbacks w.
Proof.
  intros Hi. unfold Process_step. destruct (m_thread w) eqn:Hpc; [done|..].
  - destruct (plain_for_loop (seq 0 (length (m_buttons (InstallHooks w))))
                (InstallHooks w)) as [[Hc (es & Ht & Hes)] Hph].
    assert (m_callbacks (InstallHooks w) = m_callbacks w ∧
            trace (InstallHooks w) = EInstallHooks :: trace w) as [Hc' Ht']
      by by destruct w, m_bEmulation0.
    split; [|congruence]. destruct Hi as [Hd Hs]. rewrite Hpc in Hd, Hs.
    unfold TraceInv. rewrite installed_phase, Hph, Ht, Ht'.
    rewrite hook_depth_plain, saved_devices_plain by done. cbn in *.
    rewrite Hd. done.
  - destruct (plain_prompt_returns i w) as [Hp Hph]. split; [|apply Hp].
    apply (plain_TraceInv w); [done| |done]. by rewrite Hph, Hpc.
  - destruct (save_button_maps_trace w) as (Ht & _).
    pose proof (save_button_maps_callbacks w) as Hc.
    split; [|done]. destruct Hi as [Hd Hs]. rewrite Hpc in Hd, Hs.
    unfold TraceInv. cbn in *. rewrite Ht, Hc, hook_depth_saves, saved_devices_saves, Hs.
    by rewrite app_nil_r.
  - unfold check_motion. destruct (negb _).
    + destruct (m_motionlessEvent w).
      * destruct (plain_settle_wait (Some 0) w) as [Hp Hth]. split; [|apply Hp].
        apply (plain_TraceInv w); [done| |done]. by rewrite Hth, Hpc.
      * split; [|done]. apply (plain_TraceInv w); [|by rewrite Hpc|done].
        by apply (plain_intro _ _ []).
    + split; [|done]. apply (plain_TraceInv w); [|by rewrite Hpc|done].
      by apply (plain_intro _ _ []).
  - unfold settle_returns.
    destruct (plain_settle_wait (if m_motionlessEvent w then Some dt else None) w)
      as [Hp Hth]. split; [|apply Hp].
    apply (plain_TraceInv w); [done| |done]. by rewrite Hth, Hpc.
  - assert (m_callbacks (RemoveHooks w) = m_callbacks w ∧
            trace (RemoveHooks w) = ERemoveHooks :: trace w) as [Hc' Ht']
      by by destruct w, m_bEmulation0.
    destruct Hi as [Hd Hs]. rewrite Hpc in Hd, Hs. cbn in Hd, Hs.
    generalize dependent (RemoveHooks w). intros w' Hc' Ht'.
    split; [|done]. unfold TraceInv. cbn. rewrite Ht', Hc'. cbn.
    split; [lia|by right].
Qed.

Lemma TraceInv_Process_steps n dts w :
  TraceInv w →
  TraceInv (Process_steps n dts w) ∧
  m_callbacks (Process_steps n dts w) = m_callbacks w.
Proof.
  revert dts w. induction n as [|n IH]; intros dts w Hi; cbn [Process_steps];
    [done|].
  destruct (TraceInv_Process_step (dts O) w Hi) as [Hi' <-]. by apply IH.
Qed.

Lemma TraceInv_Abort bWait dts w :
  TraceInv w →
  TraceInv (Abort bWait dts w).2 ∧ m_callbacks (Abort bWait dts w).2 = m_callbacks w.
Proof.
  intros Hi. unfold Abort. destruct (IsRunning w); cbn [snd]; [|done].
  set (w1 := m_motionlessEvent_Set _).
  assert (TraceInv w1 ∧ m_callbacks w1 = m_callbacks w) as [Hi1 Hc1].
  { split; [|done]. apply (plain_TraceInv w); [|done|done].
    by apply (plain_intro _ _ [EMotionlessEventSet; EInputEventSet; EStopThread false]). }
  clearbody w1. destruct bWait; [|done]. unfold StopThread_wait.
  set (w2 := emit (EStopThread true) _).
  assert (TraceInv w2 ∧ m_callbacks w2 = m_callbacks w1) as [Hi2 Hc2].
  { split; [|done]. apply (plain_TraceInv w1); [|done|done].
    by apply (plain_intro _ _ [EStopThread true]). }
  clearbody w2. destruct (TraceInv_Process_steps 6 dts w2 Hi2) as [Hi3 Hc3].
  split; [done|congruence].
Qed.

Lemma Abort_wait_thread dts w : m_thread (Abort true dts w).2 = pcNone.
Proof.
  unfold Abort. destruct (IsRunning w) eqn:Hr; cbn [snd].
  - apply StopThread_wait_joins.
  - unfold IsRunning in Hr. apply bool_decide_eq_false in Hr.
    by destruct (decide (m_thread w = pcNone)).
Qed.

Lemma TraceInv_Run id buttons dts w :
  TraceInv w →
  TraceInv (Run id buttons dts w) ∧ m_callbacks (Run id buttons dts w) = m_callbacks w.
Proof.
  intros Hi. destruct (TraceInv_Abort true dts w Hi) as [[Hd _] Hc].
  pose proof (Abort_wait_thread dts w) as Hpc. rewrite Hpc in Hd.
  unfold Run. generalize dependent (Abort true dts w).2. intros w1 Hd Hc Hpc.
  split; [|done]. unfold TraceInv. cbn. by rewrite Hd.
Qed.

Lemma TraceInv_step e w :
  TraceInv w → TraceInv (step e w) ∧ m_callbacks (step e w) = m_callbacks w.
Proof.
  intros Hi. destruct e; cbn [step].
  - by apply TraceInv_Run.
  - by apply TraceInv_Abort.
  - unfold OnUnfocus. case_bool_decide; [|done].
    destruct (plain_Abort_nowait w) as [Hc Hp]. split; [|done].
    apply (plain_TraceInv w); [done| |done].
    by destruct (Abort_nowait_frame w) as (_ & -> & _).
  - by apply TraceInv_Process_step.
  - case_bool_decide; [|done].
    destruct (plain_MapPrimitive bm p w) as [Hc Hp]. split; [|done].
    apply (plain_TraceInv w); [done| |done].
    by destruct (MapPrimitive_frame bm p w) as (_ & -> & _).
  - case_bool_decide; [|done].
    destruct (plain_OnEventFrame bm bMotion w) as [Hc Hp]. split; [|done].
    apply (plain_TraceInv w); [done| |done].
    by destruct (OnEventFrame_session bm bMotion w) as (-> & _).
  - case_bool_decide; [|done]. unfold OnKeyPress.
    destruct (plain_Abort_nowait w) as [Hc Hp]. split; [|done].
    apply (plain_TraceInv w); [done| |done].
    by destruct (Abort_nowait_frame w) as (_ & -> & _).
  - case_bool_decide; [|done]. unfold OnButtonPress.
    destruct (plain_Abort_nowait w) as [Hc Hp]. split; [|done].
    apply (plain_TraceInv w); [done| |done].
    by destruct (Abort_nowait_frame w) as (_ & -> & _).
  - case_bool_decide; [|done]. unfold Notify. destruct msg; [|done].
    split; [|done]. apply (plain_TraceInv w); [|done|done].
    by apply (plain_intro _ _ []).
Qed.

Lemma TraceInv_wizard_after bEmulation callbacks evs :
  TraceInv (wizard_after (B:=B) bEmulation callbacks evs) ∧
  m_callbacks (wizard_after (B:=B) bEmulation callbacks evs) = callbacks.
Proof.
  unfold wizard_after.
  assert (TraceInv (CGUIConfigurationWizard (B:=B) bEmulation callbacks) ∧
          m_callbacks (CGUIConfigurationWizard (B:=B) bEmulation callbacks)
            = callbacks) as Hi by (split; [split; [done|by left]|done]).
  revert Hi. generalize (CGUIConfigurationWizard (B:=B) bEmulation callbacks).
  induction evs as [|e evs IH]; intros w Hi; [done|].
  apply IH. destruct Hi as [Hi <-]. by apply TraceInv_step.
Qed.

(** ** Hooks: installed by the first step, removed by the last *)

(** C5: on every path, abort paths included, all hooks (button mapper,
    topology observer, keyboard handler unless emulating, mouse handler)
    are registered once while the worker is between [InstallHooks] and
    [RemoveHooks] and none is registered otherwise, and the trace holds one
    unanswered [InstallHooks] exactly then.  The first step of the worker
    calls [InstallHooks] before anything else, no later step ends the
    worker except the one that calls [RemoveHooks], and from every state an
    abort that waits ends with the worker gone and no hook left.  [Run]
    creates the worker with no hook registered, and the first step of that
    worker registers them all. *)
Theorem hooks_installed_and_removed bEmulation callbacks evs dts dt id buttons :
  let w := wizard_after bEmulation callbacks evs in
  (m_thread (Run id buttons dts w) = pcStart ∧
   hooks (Run id buttons dts w) = mkHooks 0 0 0 0 ∧
   hooks (Process_step dt (Run id buttons dts w))
     = mkHooks 1 1 (if bEmulation then 0 else 1) 1) ∧
  hooks w = (if installed (m_thread w)
             then mkHooks 1 1 (if bEmulation then 0 else 1) 1
             else mkHooks 0 0 0 0) ∧
  hook_depth (trace w) = (if installed (m_thread w) then 1 else 0) ∧
  match m_thread w with
  | pcNone => Process_step dt w = w
  | pcStart =>
      installed (m_thread (Process_step dt w)) = true ∧
      ∃ es, trace (Process_step dt w) = es ++ EInstallHooks :: trace w ∧
            forallb plain_effect es = true
  | pcRemove => Process_step dt w = set_thread pcNone (RemoveHooks w)
  | _ => installed (m_thread (Process_step dt w)) = true
  end ∧
  m_thread (Abort true dts w).2 = pcNone ∧
  hooks (Abort true dts w).2 = mkHooks 0 0 0 0.
Proof.
  intros w.
  destruct (wizard_after_hooks bEmulation callbacks evs) as [Hi He].
  destruct (TraceInv_wizard_after bEmulation callbacks evs) as [[Hd _] _].
  destruct (Abort_wait_after bEmulation callbacks evs dts) as [Hpc Hh].
  fold w in Hi, He, Hd, Hpc, Hh. clearbody w.
  split.
  { destruct (Run_hooks id buttons dts w Hi) as [Hr Her].
    assert (m_thread (Run id buttons dts w) = pcStart) as Hpr by done.
    destruct (Process_step_hooks dt _ Hr) as [Hp Hep].
    unfold HooksInv in Hr, Hp. rewrite Hpr in Hr. rewrite Hep, Her, He in Hp.
    split; [done|]. split; [done|]. rewrite Hp.
    unfold Process_step. rewrite Hpr.
    destruct (for_loop_frame (seq 0 (length (m_buttons (InstallHooks (Run id buttons dts w)))))
                (InstallHooks (Run id buttons dts w))) as (_ & _ & _ & Hin & _).
    by rewrite Hin. }
  split; [unfold HooksInv in Hi; by rewrite Hi, He|]. split; [done|].
  split; [|done]. unfold Process_step. destruct (m_thread w) eqn:Hw; try done.
  - destruct (for_loop_frame (seq 0 (length (m_buttons (InstallHooks w))))
                (InstallHooks w)) as (_ & _ & _ & Hin & _).
    split; [done|].
    destruct (plain_for_loop (seq 0 (length (m_buttons (InstallHooks w))))
                (InstallHooks w)) as [[_ (es & Ht & Hes)] _].
    exists es. split; [|done]. rewrite Ht. by destruct w, m_bEmulation0.
  - by destruct (prompt_returns_frame i w) as (_ & _ & _ & ->).
  - unfold check_motion. destruct (negb _); [|done].
    destruct (m_motionlessEvent w); [|done].
    by destruct (plain_settle_wait (Some 0) w) as [_ ->].
  - unfold settle_returns.
    by destruct (plain_settle_wait (if m_motionlessEvent w then Some dt else None) w)
      as [_ ->].
Qed.

(** ** The records of a run

    Only [MapPrimitive] makes records, and each goes to the button map that
    delivered the primitive. *)

Lemma records_from_filter cbs t :
  records_from cbs t = records_from cbs (List.filter is_record t).
Proof.
  induction t as [|e t IH]; [done|]. cbn [List.filter].
  destruct e; cbn [is_record]; try exact IH;
    change (records_from cbs (?e :: ?t))
      with (match record_device e with
            | Some device => bool_decide (device ∈ cbs)
            | None => true
            end && records_from cbs t); by rewrite IH.
Qed.

Lemma records_from_touched cbs t device :
  records_from cbs t = true → device ∈ touched_devices t → device ∈ cbs.
Proof.
  induction t as [|e t IH]; cbn; [by intros _ ?%elem_of_nil|].
  intros [He Ht]%andb_true_iff Hin.
  destruct e; cbn in *; try (by apply IH); try (by apply elem_of_nil in Hin);
    (apply elem_of_cons in Hin as [->|Hin]; [by apply bool_decide_eq_true in He|by apply IH]).
Qed.

Lemma recs_Abort_nowait w :
  List.filter is_record (trace (Abort_nowait w).2) = List.filter is_record (trace w).
Proof. unfold Abort_nowait. by destruct (IsRunning w). Qed.

Lemma recs_OnEventFrame b bMotion w :
  List.filter is_record (trace (OnEventFrame b bMotion w))
    = List.filter is_record (trace w).
Proof.
  unfold OnEventFrame. destruct (_ && _); [|done].
  unfold OnMotionless. by case_bool_decide.
Qed.

Lemma recs_for_loop idxs w :
  List.filter is_record (trace (for_loop idxs w)) = List.filter is_record (trace w).
Proof.
  revert w. induction idxs as [|i rest IH]; intros w; cbn [for_loop]; [done|].
  cbn -[finish_loop]. destruct (m_buttons w !! i) as [button|]; [|done].
  destruct (IsFinished button); [|done].
  change (m_bStop (reset_button i (set_currentButton (Some i) w))) with (m_bStop w).
  destruct (m_bStop w); [done|]. by rewrite IH.
Qed.

Lemma recs_prompt_returns i w :
  List.filter is_record (trace (prompt_returns i w)) = List.filter is_record (trace w).
Proof.
  unfold prompt_returns. destruct (m_buttons w !! i) as [button|]; [|done].
  destruct (PromptForInput button (m_inputEvent w)) as [button' ok]. cbv zeta.
  set (w0 := set_inputEvent false _).
  set (w1 := if negb ok then _ else _).
  assert (List.filter is_record (trace w1) = List.filter is_record (trace w)) as Hc1.
  { subst w1. destruct ok; cbn [negb]; [done|]. by rewrite recs_Abort_nowait. }
  clearbody w1. clear w0. destruct (m_bStop w1) eqn:Hs1; [by cbn|].
  destruct (IsFinished button'); [|by cbn].
  change (m_bStop (reset_button i w1)) with (m_bStop w1). rewrite Hs1.
  by rewrite recs_for_loop.
Qed.

Lemma recs_saves l t :
  List.filter is_record (rev (map ESaveButtonMap l) ++ t) = List.filter is_record t.
Proof.
  revert t. induction l as [|d l IH]; intros t; [done|].
  cbn [map rev]. rewrite <- !app_assoc. by rewrite IH.
Qed.

Lemma recs_Process_step dt w :
  List.filter is_record (trace (Process_step dt w)) = List.filter is_record (trace w).
Proof.
  unfold Process_step. destruct (m_thread w).
  - done.
  - rewrite recs_for_loop. by destruct w, m_bEmulation0.
  - apply recs_prompt_returns.
  - destruct (save_button_maps_trace w) as (Ht & _).
    change (trace (set_thread pcCheckMotion (save_button_maps w)))
      with (trace (save_button_maps w)). by rewrite Ht, recs_saves.
  - unfold check_motion, settle_wait. destruct (negb _); [|done].
    destruct (m_motionlessEvent w); [|done]. by destruct (WaitMSec _ _) as [[] ?].
  - unfold settle_returns, settle_wait. by destruct (WaitMSec _ _) as [[] ?].
  - by destruct w, m_bEmulation0.
Qed.

Lemma recs_Process_steps n dts w :
  List.filter is_record (trace (Process_steps n dts w))
    = List.filter is_record (trace w).
Proof.
  revert dts w. induction n as [|n IH]; intros dts w; cbn [Process_steps]; [done|].
  by rewrite IH, recs_Process_step.
Qed.

Lemma recs_Abort bWait dts w :
  List.filter is_record (trace (Abort bWait dts w).2) = List.filter is_record (trace w).
Proof.
  unfold Abort. destruct (IsRunning w); cbn [snd]; [|done].
  destruct bWait; [|done]. unfold StopThread_wait. by rewrite recs_Process_steps.
Qed.

Lemma recs_Run id buttons dts w :
  List.filter is_record (trace (Run id buttons dts w))
    = List.filter is_record (trace w).
Proof.
  pose proof (recs_Abort true dts w) as Ha. unfold Run.
  generalize dependent (Abort true dts w).2. intros w1 Ha. by cbn.
Qed.

Lemma recs_MapPrimitive bm p w :
  List.filter is_record (trace (MapPrimitive bm p w).2)
    = List.filter is_record (trace w) ∨
  ∃ e, record_device e = Some (DeviceName bm) ∧
       List.filter is_record (trace (MapPrimitive bm p w).2)
         = e :: List.filter is_record (trace w).
Proof.
  unfold MapPrimitive. destruct (is_cancel p); [left; apply recs_Abort_nowait|].
  case_bool_decide; [by left|]. destruct (IsIgnored bm p); [by left|].
  destruct (m_currentButton w ≫= _) as [button|]; [|by left].
  destruct (FType (Feature button)); try (by left); right.
  - by eexists (EAddScalar _ _ p).
  - by eexists (EAddAnalogStick _ _ _ p).
Qed.

Lemma records_from_step cbs e w :
  delivered_by (B:=B) cbs [e] = true →
  records_from cbs (trace w) = true →
  records_from cbs (trace (step e w)) = true.
Proof.
  intros Hd. rewrite (records_from_filter cbs (trace w)),
    (records_from_filter cbs (trace (step e w))).
  destruct e; cbn [step].
  - by rewrite recs_Run.
  - by rewrite recs_Abort.
  - unfold OnUnfocus. case_bool_decide; [|done]. by rewrite recs_Abort_nowait.
  - by rewrite recs_Process_step.
  - case_bool_decide; [|done].
    destruct (recs_MapPrimitive bm p w) as [->|(e & He & ->)]; [done|].
    intros Hr.
    change (records_from cbs (e :: ?t))
      with (match record_device e with
            | Some device => bool_decide (device ∈ cbs)
            | None => true
            end && records_from cbs t).
    rewrite He, Hr. cbn in Hd. rewrite andb_true_r in Hd. by rewrite Hd.
  - case_bool_decide; [|done]. by rewrite recs_OnEventFrame.
  - case_bool_decide; [|done]. unfold OnKeyPress. by rewrite recs_Abort_nowait.
  - case_bool_decide; [|done]. unfold OnButtonPress. by rewrite recs_Abort_nowait.
  - case_bool_decide; [|done]. unfold Notify. by destruct msg.
Qed.

Lemma records_from_wizard_after bEmulation callbacks evs :
  delivered_by (B:=B) callbacks evs = true →
  records_from callbacks (trace (wizard_after bEmulation callbacks evs)) = true.
Proof.
  unfold wizard_after.
  assert (records_from callbacks
            (trace (CGUIConfigurationWizard (B:=B) bEmulation callbacks)) = true) as Hi
    by done.
  revert Hi. generalize (CGUIConfigurationWizard (B:=B) bEmulation callbacks).
  induction evs as [|e evs IH]; intros w Hi Hd; [done|].
  unfold delivered_by in Hd. cbn [forallb] in Hd.
  apply andb_true_iff in Hd as [He Hd]. apply IH; [|done].
  apply records_from_step; [|done]. unfold delivered_by. cbn [forallb].
  by rewrite andb_true_r.
Qed.

(** ** The saves of a run *)

(** C6, amended: in every reachable state, when a step of the worker leaves
    the feature loop (normally or cancelled), that step ends by clearing
    the session and no save of this run has been made yet; the next step,
    after the lock is released, calls [SaveButtonMap] once on every
    callback of [ButtonMapCallbacks()], in order, and on nothing else, and
    leaves the session cleared.  Every button map touched in this run is
    saved, the primitives being delivered by button maps whose device has
    its callback there; the callbacks of button maps that were not touched
    are called as well. *)
Theorem loop_end_clears_then_saves bEmulation callbacks evs dt dt' :
  m_thread (Process_step dt (wizard_after bEmulation callbacks evs)) = pcSave →
  session_idle (Process_step dt (wizard_after bEmulation callbacks evs)) ∧
  head (trace (Process_step dt (wizard_after bEmulation callbacks evs)))
    = Some EInitializeState ∧
  saved_devices (trace (Process_step dt (wizard_after bEmulation callbacks evs)))
    = [] ∧
  trace (Process_step dt' (Process_step dt (wizard_after bEmulation callbacks evs)))
    = rev (map ESaveButtonMap callbacks)
        ++ trace (Process_step dt (wizard_after bEmulation callbacks evs)) ∧
  session_idle
    (Process_step dt' (Process_step dt (wizard_after bEmulation callbacks evs))) ∧
  m_thread (Process_step dt' (Process_step dt (wizard_after bEmulation callbacks evs)))
    = pcCheckMotion ∧
  saved_devices
    (trace (Process_step dt' (Process_step dt (wizard_after bEmulation callbacks evs))))
    = rev callbacks ∧
  (∀ device,
     device ∈ touched_devices
       (trace (Process_step dt'
                 (Process_step dt (wizard_after bEmulation callbacks evs)))) →
     device ∈ callbacks →
     device ∈ saved_devices
       (trace (Process_step dt'
                 (Process_step dt (wizard_after bEmulation callbacks evs))))) ∧
  (delivered_by callbacks evs = true →
   ∀ device,
     device ∈ touched_devices
       (trace (Process_step dt'
                 (Process_step dt (wizard_after bEmulation callbacks evs)))) →
     device ∈ saved_devices
       (trace (Process_step dt'
                 (Process_step dt (wizard_after bEmulation callbacks evs))))).
Proof.
  intros Hpc.
  destruct (TraceInv_wizard_after bEmulation callbacks evs) as [Hi Hc].
  destruct (loop_exit_then_saves dt dt' _ Hpc) as (Hidle & Hhd & Ht & Hidle' & Hpc').
  destruct (TraceInv_Process_step dt _ Hi) as [Hi1 Hc1].
  destruct (TraceInv_Process_step dt' _ Hi1) as [[_ Hs2] Hc2].
  destruct Hi1 as [_ Hs1]. rewrite Hpc in Hs1. rewrite Hpc' in Hs2.
  rewrite Hc1, Hc in Ht. rewrite Hc2, Hc1, Hc in Hs2.
  cbn match in Hs1, Hs2.
  assert (∀ device, device ∈ callbacks → device ∈ rev callbacks) as Hrev.
  { intros device Hin. apply list_elem_of_In, List.in_rev.
    rewrite List.rev_involutive. by apply list_elem_of_In. }
  split_and!; try done.
  - intros device _ Hin. rewrite Hs2. by apply Hrev.
  - intros Hd device Hin. rewrite Hs2. apply Hrev.
    apply (records_from_touched callbacks _ device) in Hin; [done|].
    rewrite records_from_filter, !recs_Process_step, <- records_from_filter.
    by apply records_from_wizard_after.
Qed.

(** ** The settle wait *)

(** C7: when the feature loop has ended and the saves are made, an empty
    motion set takes the worker to [RemoveHooks] without any wait.  With a
    non-empty motion set the worker waits on the settle signal with the
    timeout of 5000 ms: a signal that is set already ends the wait at once
    and is consumed; otherwise the worker blocks, and the wait ends when the
    signal fires (after the time that took, at most 5000 ms, consuming the
    signal) or after exactly 5000 ms when it does not fire in time.  Either
    way the worker comes to its end. *)
Theorem settle_wait_is_bounded dt dts w w1 :
  m_thread w = pcCheckMotion → m_thread w1 = pcSettle →
  (if bool_decide (m_bInMotion w = ∅)
   then Process_step dt w = set_thread pcRemove w
   else if m_motionlessEvent w
        then Process_step dt w
             = set_thread pcRemove
                 (emit (EWaitMSec 5000 0) (set_motionlessEvent false w))
        else Process_step dt w = set_thread pcSettle w) ∧
  (if m_motionlessEvent w1 && (dt <=? 5000)
   then Process_step dt w1
        = set_thread pcRemove
            (emit (EWaitMSec 5000 (Z.max 0 dt)) (set_motionlessEvent false w1)) ∧
        0 ≤ Z.max 0 dt ≤ 5000
   else Process_step dt w1 = set_thread pcRemove (emit (EWaitMSec 5000 5000) w1)) ∧
  m_thread (Process_steps 3 dts w) = pcNone ∧
  m_thread (Process_steps 2 dts w1) = pcNone.
Proof.
  intros Hpc Hpc1. split_and!.
  - unfold Process_step, check_motion. rewrite Hpc.
    case_bool_decide; cbn [negb]; [done|]. by destruct (m_motionlessEvent w).
  - unfold Process_step, settle_returns, settle_wait, WaitMSec,
      POST_MAPPING_WAIT_TIME_MS. rewrite Hpc1.
    destruct (m_motionlessEvent w1); cbn [andb]; [|done].
    change (5 * 1000) with 5000. destruct (Z.leb_spec dt 5000); [|done].
    split; [done|lia].
  - apply rank_0.
    assert (rank (m_thread w) ≤ 4)%nat as Hle by (rewrite Hpc; cbn; lia).
    pose proof (Process_steps_rank_tail 3 dts w Hle) as Hr.
    rewrite Hpc in Hr. cbn [rank] in Hr. lia.
  - apply rank_0.
    assert (rank (m_thread w1) ≤ 4)%nat as Hle by (rewrite Hpc1; cbn; lia).
    pose proof (Process_steps_rank_tail 2 dts w1 Hle) as Hr.
    rewrite Hpc1 in Hr. cbn [rank] in Hr. lia.
Qed.

(** ** The settle signal against the motion set *)





(** ** Notifications and runs without a record *)

(** X5: [Notify] on a change of the peripherals unregisters the button
    mapper and registers it again, so that one more mapper is registered
    than were left after the removal, whatever the state; any other message
    changes nothing.  In every reachable state in which the hooks are
    installed this leaves the wizard as it is: the registrations are the
    same and nothing is aborted. *)
Theorem Notify_keeps_the_run bEmulation callbacks evs msg w :
  hooks (Notify ObservableMessagePeripheralsChanged w)
    = mkHooks (S (Nat.pred (buttonMappers (hooks w)))) (observers (hooks w))
        (keyboardHandlers (hooks w)) (mouseHandlers (hooks w)) ∧
  Notify ObservableMessageOther w = w ∧
  (installed (m_thread (wizard_after bEmulation callbacks evs)) = true →
   Notify msg (wizard_after bEmulation callbacks evs)
     = wizard_after bEmulation callbacks evs).
Proof.
  split; [done|]. split; [done|]. intros Hin.
  destruct (wizard_after_hooks bEmulation callbacks evs) as [Hi _].
  generalize dependent (wizard_after bEmulation callbacks evs). intros w0 Hin Hi.
  unfold HooksInv in Hi. rewrite Hin in Hi. unfold Notify.
  destruct msg; [|done]. destruct w0 as [emu ? ? ? ? ? ? ? ? ? ? ? hk ?].
  cbn in *. subst hk. by destruct emu.
Qed.

(** X14: in every reachable state in which no record was made since the
    worker was created, the motion set is empty; so a run in which nothing
    was recorded goes from the saves to [RemoveHooks] without the settle
    wait. *)
Theorem run_without_record_never_waits bEmulation callbacks evs dt :
  touched_devices (trace (wizard_after bEmulation callbacks evs)) = [] →
  m_bInMotion (wizard_after bEmulation callbacks evs) = ∅ ∧
  (m_thread (wizard_after bEmulation callbacks evs) = pcCheckMotion →
   Process_step dt (wizard_after bEmulation callbacks evs)
     = set_thread pcRemove (wizard_after bEmulation callbacks evs)).
Proof.
  pose proof (MotionInv_wizard_after bEmulation callbacks evs) as Hi.
  generalize dependent (wizard_after bEmulation callbacks evs). intros w Hi Ht.
  assert (m_bInMotion w = ∅) as Hm.
  { destruct (decide (m_bInMotion w = ∅)) as [|Hne]; [done|].
    by destruct (Hi Hne). }
  split; [done|]. intros Hpc. unfold Process_step, check_motion. rewrite Hpc, Hm.
  by rewrite bool_decide_eq_true_2.
Qed.

End Runs.

(** The run is cancelled by the mouse while the worker waits for "Left":
    joystick0, touched twice, is saved. *)
Lemma loop_end_clears_then_saves_witness :
  let w := wizard_after false ["joystick0"] (scenario ++ [DeliverOnButtonPress]) in
  session_idle (Process_step 0 w) ∧
  head (trace (Process_step 0 w)) = Some EInitializeState ∧
  saved_devices (trace (Process_step 0 w)) = [] ∧
  trace (Process_step 0 (Process_step 0 w))
    = rev (map ESaveButtonMap ["joystick0"]) ++ trace (Process_step 0 w) ∧
  session_idle (Process_step 0 (Process_step 0 w)) ∧
  m_thread (Process_step 0 (Process_step 0 w)) = pcCheckMotion ∧
  saved_devices (trace (Process_step 0 (Process_step 0 w))) = rev ["joystick0"] ∧
  (∀ device,
     device ∈ touched_devices (trace (Process_step 0 (Process_step 0 w))) →
     device ∈ ["joystick0"] →
     device ∈ saved_devices (trace (Process_step 0 (Process_step 0 w)))) ∧
  (∀ device,
     device ∈ touched_devices (trace (Process_step 0 (Process_step 0 w))) →
     device ∈ saved_devices (trace (Process_step 0 (Process_step 0 w)))).
Proof.
  intros w.
  destruct (loop_end_clears_then_saves false ["joystick0"]
              (scenario ++ [DeliverOnButtonPress]) 0 0)
    as (H1 & H2 & H3 & H4 & H5 & H6 & H7 & H8 & H9); [vm_compute; reflexivity|].
  split; [exact H1|]. split; [exact H2|]. split; [exact H3|]. split; [exact H4|].
  split; [exact H5|]. split; [exact H6|]. split; [exact H7|]. split; [exact H8|].
  apply H9. vm_compute. reflexivity.
Defined.

(** The scenario played to the saves with axis 0 still in motion: the worker
    blocks; the axis comes to rest after 1200 ms and the wait ends then. *)
Lemma settle_wait_is_bounded_witness :
  let w := wizard_after false ["joystick0"] scenario_to_the_saves in
  let w1 := wizard_after false ["joystick0"] scenario_settling in
  (if bool_decide (m_bInMotion w = ∅)
   then Process_step 1200 w = set_thread pcRemove w
   else if m_motionlessEvent w
        then Process_step 1200 w
             = set_thread pcRemove
                 (emit (EWaitMSec 5000 0) (set_motionlessEvent false w))
        else Process_step 1200 w = set_thread pcSettle w) ∧
  (if m_motionlessEvent w1 && (1200 <=? 5000)
   then Process_step 1200 w1
        = set_thread pcRemove
            (emit (EWaitMSec 5000 (Z.max 0 1200)) (set_motionlessEvent false w1)) ∧
        0 ≤ Z.max 0 1200 ≤ 5000
   else Process_step 1200 w1 = set_thread pcRemove (emit (EWaitMSec 5000 5000) w1)) ∧
  m_thread (Process_steps 3 no_wait w) = pcNone ∧
  m_thread (Process_steps 2 no_wait w1) = pcNone.
Proof.
  intros w w1.
  apply (settle_wait_is_bounded 1200 no_wait w w1); vm_compute; reflexivity.
Defined.


(** The worker prompts for "A": the hooks are installed. *)
Lemma Notify_keeps_the_run_witness :
  let w := wizard_after false ["joystick0"] (take 2 scenario) in
  hooks (Notify ObservableMessagePeripheralsChanged w)
    = mkHooks (S (Nat.pred (buttonMappers (hooks w)))) (observers (hooks w))
        (keyboardHandlers (hooks w)) (mouseHandlers (hooks w)) ∧
  Notify ObservableMessageOther w = w ∧
  Notify ObservableMessagePeripheralsChanged w = w.
Proof.
  intros w.
  destruct (Notify_keeps_the_run false ["joystick0"] (take 2 scenario)
              ObservableMessagePeripheralsChanged w) as (H1 & H2 & H3).
  split; [exact H1|]. split; [exact H2|]. apply H3. vm_compute. reflexivity.
Defined.

(** The run is cancelled by the mouse before anything is recorded. *)
Lemma run_without_record_never_waits_witness :
  let w := wizard_after false ["joystick0"]
             (take 2 scenario ++ [DeliverOnButtonPress; Worker 0; Worker 0]) in
  m_bInMotion w = ∅ ∧ Process_step 0 w = set_thread pcRemove w.
Proof.
  intros w.
  destruct (run_without_record_never_waits false ["joystick0"]
              (take 2 scenario ++ [DeliverOnButtonPress; Worker 0; Worker 0]) 0)
    as [H1 H2]; [vm_compute; reflexivity|].
  split; [exact H1|]. apply H2. vm_compute. reflexivity.
Defined.
